(** * The transcription job client and the phrase translator

    A shallow embedding of [transcribe.py] (the function [transcribe_audio]:
    local validation, one upload, a bounded polling loop) and of
    [translate.py] (the authored phrase table, the derivation of the reverse
    pairs at startup, the phrase lookup), followed by the properties the
    specification states about them. *)

From Stdlib Require Import Bool Arith ZArith Lia List String Ascii.
From Stdlib Require Import DecimalString Floats.
Import ListNotations.

Open Scope string_scope.

(* ================================================================== *)
(** * Python values *)
(* ================================================================== *)

Module Py.

(** What a call returns to its caller: a value, or an exception carrying the
    text [str(e)] gives for it. *)
Inductive outcome (A : Type) : Type :=
| Ok (a : A)
| Raised (msg : string).
Arguments Ok {A} a.
Arguments Raised {A} msg.

(** A [dict] keeps its keys in insertion order, and the phrase lookup depends
    on that order, so a dict is an association list.  Assigning to a key that
    is present keeps its place; a new key goes last. *)
Definition dict (V : Type) : Type := list (string * V).

Fixpoint dict_get {V : Type} (d : dict V) (k : string) : option V :=
  match d with
  | [] => None
  | (k', v) :: rest => if String.eqb k' k then Some v else dict_get rest k
  end.

(** [k in d] *)
Definition dict_in {V : Type} (k : string) (d : dict V) : bool :=
  match dict_get d k with Some _ => true | None => false end.

(** [d[k] = v] *)
Fixpoint dict_set {V : Type} (d : dict V) (k : string) (v : V) : dict V :=
  match d with
  | [] => [(k, v)]
  | (k', v') :: rest =>
      if String.eqb k' k then (k', v) :: rest else (k', v') :: dict_set rest k v
  end.

(** [list(d.keys())] *)
Definition dict_keys {V : Type} (d : dict V) : list string := map fst d.

(** The values [json.loads] builds, which are also the values
    [transcribe_audio] can return. *)
#[warnings="-register-all"]
Inductive pyval : Type :=
| PNone
| PBool (b : bool)
| PInt (z : Z)
| PFloat (f : float)
| PStr (s : string)
| PList (l : list pyval)
| PDict (d : list (string * pyval)).

(** Truth value of an object, as [if not job_id] tests it. *)
Definition truthy (v : pyval) : bool :=
  match v with
  | PNone => false
  | PBool b => b
  | PInt z => negb (Z.eqb z 0)
  | PFloat f => negb (PrimFloat.eqb f 0%float)
  | PStr s => negb (String.eqb s "")
  | PList l => match l with [] => false | _ :: _ => true end
  | PDict d => match d with [] => false | _ :: _ => true end
  end.

Definition type_name (v : pyval) : string :=
  match v with
  | PNone => "NoneType"
  | PBool _ => "bool"
  | PInt _ => "int"
  | PFloat _ => "float"
  | PStr _ => "str"
  | PList _ => "list"
  | PDict _ => "dict"
  end.

(** [v.get(k, default)]: only a dict has the method. *)
Definition py_get (v : pyval) (k : string) (default : pyval) : outcome pyval :=
  match v with
  | PDict d => Ok (match dict_get d k with Some x => x | None => default end)
  | _ => Raised ("'" ++ type_name v ++ "' object has no attribute 'get'")
  end.

(** [v == s] for a string literal [s]. *)
Definition eq_str (v : pyval) (s : string) : bool :=
  match v with
  | PStr x => String.eqb x s
  | _ => false
  end.

(** The builtins the two scripts call and whose text is the interpreter's
    business: [repr] of a value that is not a string, [json.dumps], and
    [str.lower]. *)
Class Builtins : Type := {
  py_repr : pyval -> string;
  json_dumps : pyval -> string;
  str_lower : string -> string
}.

(** [str(v)], which is what an f-string field prints. *)
Definition py_str `{Builtins} (v : pyval) : string :=
  match v with
  | PStr s => s
  | _ => py_repr v
  end.

(** [str(n)] of an integer. *)
Definition str_of_int (z : Z) : string := NilZero.string_of_int (Z.to_int z).

Fixpoint has_sep (p : string) : bool :=
  match p with
  | EmptyString => false
  | String c rest => Ascii.eqb c "/"%char || has_sep rest
  end.

(** [os.path.basename]: what follows the last slash. *)
Fixpoint basename (p : string) : string :=
  match p with
  | EmptyString => EmptyString
  | String _ rest => if has_sep p then basename rest else p
  end.

End Py.

(* ================================================================== *)
(** * transcribe.py *)
(* ================================================================== *)

Module Transcribe.
Import Py.

(** ** The world the function runs in *)

(** A reply of the service: [status_code], [text], and what [.json()] gives
    (it raises on a body that is not JSON). *)
Record response : Type := {
  status_code : Z;
  text : string;
  json : outcome pyval
}.

(** What [requests.post] or [requests.get] does: raise, or hand back a reply. *)
Inductive net_outcome : Type :=
| NetRaise (msg : string)
| NetReply (r : response).

(** A path names nothing, or something [open] refuses, or a readable file. *)
Inductive fstat : Type :=
| Missing
| Unopenable (err : string)
| Readable.

(** The file system, the reply to the upload and the reply to the n-th status
    request (counted from 0).  The function is deterministic, so its requests
    are determined by the replies before them. *)
Record world : Type := {
  fs : string -> fstat;
  post_reply : net_outcome;
  poll_reply : nat -> net_outcome
}.

(** One part of [files]: file name, the path of the open handle, MIME type. *)
Definition file_part : Type := (string * string * string)%type.

(** What the function does to the world, in order. *)
Inductive event : Type :=
| EvOpen (path : string)
| EvClose (path : string)
| EvPrint (line : string)
| EvSleep (seconds : Z)
| EvPost (url : string) (headers data : dict string) (files : dict file_part)
| EvGet (url : string) (headers : dict string).

Definition is_post (e : event) : bool :=
  match e with EvPost _ _ _ _ => true | _ => false end.

Definition is_get (e : event) : bool :=
  match e with EvGet _ _ => true | _ => false end.

Definition is_network (e : event) : bool := is_post e || is_get e.

Definition n_posts (log : list event) : nat := List.length (filter is_post log).
Definition n_gets (log : list event) : nat := List.length (filter is_get log).
Definition n_requests (log : list event) : nat := List.length (filter is_network log).

(** ** Statements that run in the world *)

(** How a block ends: it falls through with a value, executes [return], or
    raises. *)
Inductive completion (A : Type) : Type :=
| Normal (a : A)
| Returns (v : pyval)
| Throws (msg : string).
Arguments Normal {A} a.
Arguments Returns {A} v.
Arguments Throws {A} msg.

Definition M (A : Type) : Type := world -> list event -> completion A * list event.

Definition pure {A : Type} (a : A) : M A := fun _ log => (Normal a, log).

Definition bind {A B : Type} (m : M A) (k : A -> M B) : M B :=
  fun w log =>
    match m w log with
    | (Normal a, log') => k a w log'
    | (Returns v, log') => (Returns v, log')
    | (Throws msg, log') => (Throws msg, log')
    end.

Notation "x <- c ;; k" := (bind c (fun x => k))
  (at level 61, c at next level, right associativity).
Notation "c ;; k" := (bind c (fun _ => k))
  (at level 61, right associativity).

Definition return_ {A : Type} (v : pyval) : M A := fun _ log => (Returns v, log).

Definition raise {A : Type} (msg : string) : M A := fun _ log => (Throws msg, log).

Definition emit (e : event) : M unit := fun _ log => (Normal tt, (log ++ [e])%list).

Definition lift {A : Type} (o : outcome A) : M A :=
  match o with
  | Ok a => pure a
  | Raised msg => raise msg
  end.

Definition print (line : string) : M unit := emit (EvPrint line).

Definition sleep (seconds : Z) : M unit := emit (EvSleep seconds).

Definition os_path_exists (path : string) : M bool :=
  fun w log =>
    (Normal (match fs w path with Missing => false | _ => true end), log).

(** [with open(path, "rb") as f: body]: the handle is closed however the body
    ends. *)
Definition with_open {A : Type} (path : string) (body : M A) : M A :=
  fun w log =>
    match fs w path with
    | Readable =>
        let '(c, log') := body w (log ++ [EvOpen path])%list in
        (c, (log' ++ [EvClose path])%list)
    | Unopenable err => (Throws err, log)
    | Missing =>
        (Throws ("[Errno 2] No such file or directory: '" ++ path ++ "'"), log)
    end.

Definition requests_post (url : string) (headers data : dict string)
    (files : dict file_part) : M response :=
  fun w log =>
    let log' := (log ++ [EvPost url headers data files])%list in
    match post_reply w with
    | NetReply r => (Normal r, log')
    | NetRaise msg => (Throws msg, log')
    end.

(** The reply to a status request is the one the world holds for the number
    of status requests made before it. *)
Definition requests_get (url : string) (headers : dict string) : M response :=
  fun w log =>
    let log' := (log ++ [EvGet url headers])%list in
    match poll_reply w (n_gets log) with
    | NetReply r => (Normal r, log')
    | NetRaise msg => (Throws msg, log')
    end.

(** [try: body except Exception as e: handler(str(e))] *)
Definition try_except {A : Type} (body : M A) (handler : string -> M A) : M A :=
  fun w log =>
    match body w log with
    | (Throws msg, log') => handler msg w log'
    | r => r
    end.

(** ** The function *)

Definition language_codes : dict string :=
  [ ("English", "eng");
    ("Luganda", "lug");
    ("Runyankole", "nyn");
    ("Ateso", "teo");
    ("Lugbara", "lgg");
    ("Acholi", "ach") ].

Definition max_attempts : nat := 30.

Definition msg_unsupported (language : string) : string :=
  "Error: Language '" ++ language ++ "' is not supported.".

Definition msg_no_file (audio_path : string) : string :=
  "Error: File '" ++ audio_path ++ "' does not exist.".

Definition msg_api_failed (r : response) : string :=
  "Error: API request failed with status code " ++ str_of_int (status_code r)
    ++ ": " ++ text r.

Definition msg_no_job_id : string :=
  "Error: Failed to get job ID from API response.".

Definition msg_poll_error (r : response) : string :=
  "Error checking job status: " ++ text r.

Definition msg_no_transcription : string := "No transcription available".

Definition msg_timeout : string :=
  "Error: Transcription timed out. Please try again later.".

Definition msg_exception (e : string) : string :=
  "Error during transcription: " ++ e.

Section Function.
Context `{Builtins}.

Definition msg_failed (status_data : pyval) : outcome string :=
  match py_get status_data "error" (PStr "Unknown error") with
  | Ok reason => Ok ("Error: Transcription job failed. Reason: " ++ py_str reason)
  | Raised msg => Raised msg
  end.

(** One turn of the [while] loop, after [attempt += 1]. *)
Definition poll_once (result_url : string) (headers : dict string) : M unit :=
  sleep 5 ;;
  status_response <- requests_get result_url headers ;;
  if negb (Z.eqb (status_code status_response) 200) then
    return_ (PStr (msg_poll_error status_response))
  else
    status_data <- lift (json status_response) ;;
    status <- lift (py_get status_data "status" PNone) ;;
    if eq_str status "completed" then
      results <- lift (py_get status_data "results" (PDict [])) ;;
      transcript <- lift (py_get results "transcription" (PStr msg_no_transcription)) ;;
      return_ transcript
    else if eq_str status "failed" then
      reason <- lift (msg_failed status_data) ;;
      return_ (PStr reason)
    else
      print ("Job status: " ++ py_str status ++ ". Waiting for completion...").

(** [while attempt < max_attempts: attempt += 1; ...], started at
    [attempt = 0].  The counter is read by the guard only, so the loop is
    written on its variant [remaining = max_attempts - attempt]: the guard
    holds exactly when [remaining] is not 0. *)
Fixpoint poll_loop (remaining : nat) (result_url : string)
    (headers : dict string) : M unit :=
  match remaining with
  | O => pure tt
  | S remaining' =>
      poll_once result_url headers ;;
      poll_loop remaining' result_url headers
  end.

(** The body of the [with] block. *)
Definition upload_and_poll (audio_path language lang_code : string)
    (url : string) (headers : dict string) : M unit :=
  let files := [("audio", (basename audio_path, audio_path, "audio/mpeg"))] in
  let data :=
    [ ("task", "speech2text");
      ("parameters", json_dumps (PDict [("language", PStr lang_code)])) ] in
  print ("Uploading audio file and requesting transcription in "
           ++ language ++ "...") ;;
  response <- requests_post url headers data files ;;
  if negb (Z.eqb (status_code response) 200) then
    return_ (PStr (msg_api_failed response))
  else
    response_data <- lift (json response) ;;
    job_id <- lift (py_get response_data "id" PNone) ;;
    if negb (truthy job_id) then
      return_ (PStr msg_no_job_id)
    else
      print ("Transcription job submitted successfully. Job ID: "
               ++ py_str job_id) ;;
      print "Processing audio (this may take a moment)..." ;;
      let result_url := "https://api.sunbird.ai/v2/jobs/" ++ py_str job_id in
      poll_loop max_attempts result_url headers ;;
      return_ (PStr msg_timeout).

Definition transcribe_body (audio_path language access_token : string) : M unit :=
  match dict_get language_codes language with
  | None => return_ (PStr (msg_unsupported language))
  | Some lang_code =>
      let url := "https://api.sunbird.ai/v2/transcribe" in
      let headers := [("Authorization", "Bearer " ++ access_token)] in
      try_except
        (file_exists <- os_path_exists audio_path ;;
         if negb file_exists then
           return_ (PStr (msg_no_file audio_path))
         else
           with_open audio_path
             (upload_and_poll audio_path language lang_code url headers))
        (fun e => return_ (PStr (msg_exception e)))
  end.

(** A call of the function in world [w]: what the caller gets and what
    happened.  A body that falls off its end returns [None]. *)
Definition transcribe_audio (w : world)
    (audio_path language access_token : string) : outcome pyval * list event :=
  match transcribe_body audio_path language access_token w [] with
  | (Normal _, log) => (Ok PNone, log)
  | (Returns v, log) => (Ok v, log)
  | (Throws msg, log) => (Raised msg, log)
  end.

End Function.

End Transcribe.

(* ================================================================== *)
(** * translate.py *)
(* ================================================================== *)

Module Translate.
Import Py.

Definition languages : list string :=
  ["English"; "Luganda"; "Runyankole"; "Ateso"; "Lugbara"; "Acholi"].

(** [{source_language: {target_language: {phrase: translation}}}] *)
Definition table : Type := dict (dict (dict string)).

(** The table as it is authored: English is the only source. *)
Definition authored : table :=
  [ ("English",
     [ ("Luganda",
        [ ("Hello", "Oli otya");
          ("How are you?", "Oli otya?");
          ("Good morning", "Wasuze otya");
          ("Thank you", "Weebale");
          ("Goodbye", "Weraba");
          ("What is your name?", "Amanya go gwe ani?");
          ("My name is", "Amanya gange");
          ("I love you", "Nkwagala");
          ("I am fine", "Ndi bulungi");
          ("Welcome", "Tukusanyukidde") ]);
       ("Runyankole",
        [ ("Hello", "Agandi");
          ("How are you?", "Oli ota?");
          ("Good morning", "Oraire ota");
          ("Thank you", "Webale");
          ("Goodbye", "Urabeho");
          ("What is your name?", "Nibaiita oha?");
          ("My name is", "Nibanyeta");
          ("I love you", "Ninkukunda");
          ("I am fine", "Ndi kurungi");
          ("Welcome", "Tukushemereirwe") ]);
       ("Ateso",
        [ ("Hello", "Yoga");
          ("How are you?", "Ijok bo?");
          ("Good morning", "Ejok akwar");
          ("Thank you", "Eyalama");
          ("Goodbye", "Awaio");
          ("What is your name?", "Arai ekon bo?");
          ("My name is", "Ekon ka");
          ("I love you", "Amina jo");
          ("I am fine", "Ajok");
          ("Welcome", "Aiyalamikin") ]);
       ("Lugbara",
        [ ("Hello", "Kzi");
          ("How are you?", "Mi nga ya?");
          ("Good morning", "Muke cua");
          ("Thank you", "Awa'difo");
          ("Goodbye", "Rua pee");
          ("What is your name?", "Mi ru ngoni?");
          ("My name is", "Ma ru");
          ("I love you", "Ma mi nze");
          ("I am fine", "Ma ovu woro");
          ("Welcome", "Mu amvu") ]);
       ("Acholi",
        [ ("Hello", "Kopango");
          ("How are you?", "Itye nining?");
          ("Good morning", "Iribedo maber");
          ("Thank you", "Apwoyo");
          ("Goodbye", "Orfoyo");
          ("What is your name?", "Nyingi anga?");
          ("My name is", "Nyinga en");
          ("I love you", "Amari");
          ("I am fine", "Atye maber");
          ("Welcome", "Ibekwano") ]) ]) ].

(** [translations[a]] and [translations[a][b]], read where the code has
    made sure the keys are there. *)
Definition row (t : table) (a : string) : dict (dict string) :=
  match dict_get t a with Some r => r | None => [] end.

Definition entries (t : table) (a b : string) : dict string :=
  match dict_get (row t a) b with Some d => d | None => [] end.

(** [translations[a][b][k] = v] *)
Definition set_entry (t : table) (a b k v : string) : table :=
  dict_set t a (dict_set (row t a) b (dict_set (entries t a b) k v)).

(** ** Deriving the reverse pairs *)

(** [for x in xs: body], where the body may raise. *)
Fixpoint for_each {A S : Type} (xs : list A) (body : A -> S -> outcome S)
    (s : S) : outcome S :=
  match xs with
  | [] => Ok s
  | x :: rest =>
      match body x s with
      | Ok s' => for_each rest body s'
      | Raised msg => Raised msg
      end
  end.

(** [for phrase, translation in translations[src][tgt].items():
       translations[tgt][src][translation] = phrase]
    The loop reads the dict it iterates as it is at each step ([i] is the
    position reached), and the iterator raises when the dict's size is not
    the one it started with; both matter only when [src] and [tgt] are the
    same language, the written dict then being the iterated one. *)
Fixpoint reverse_items (src tgt : string) (size0 remaining i : nat)
    (t : table) : outcome table :=
  let d := entries t src tgt in
  if negb (Nat.eqb (List.length d) size0) then
    Raised "dictionary changed size during iteration"
  else
    match remaining with
    | O => Ok t
    | S remaining' =>
        match nth_error d i with
        | None => Ok t
        | Some (phrase, translation) =>
            reverse_items src tgt size0 remaining' (S i)
              (set_entry t tgt src translation phrase)
        end
    end.

(** The body of the two outer loops, for one pair. *)
Definition reverse_pair (src tgt : string) (t : table) : outcome table :=
  let t1 := if negb (dict_in tgt t) then dict_set t tgt [] else t in
  let t2 :=
    if negb (dict_in src (row t1 tgt))
    then dict_set t1 tgt (dict_set (row t1 tgt) src [])
    else t1 in
  let size0 := List.length (entries t2 src tgt) in
  reverse_items src tgt size0 size0 0 t2.

(** [for src_lang in list(translations.keys()):
       for tgt_lang in list(translations[src_lang].keys()): ...]
    Each key list is a snapshot taken when its loop starts. *)
Definition populate_reverse (t : table) : outcome table :=
  for_each (dict_keys t)
    (fun src_lang t' =>
       for_each (dict_keys (row t' src_lang))
         (fun tgt_lang t'' => reverse_pair src_lang tgt_lang t'')
         t')
    t.

(** The table the interactive loop works with. *)
Definition translations : outcome table := populate_reverse authored.

(** ** Phrase lookup *)

(** What the lookup prints: a translation, or that there is none. *)
Inductive answer : Type :=
| Translated (s : string)
| NotAvailable.

Definition newline : string := String (ascii_of_nat 10) EmptyString.

Definition printed (a : answer) : string :=
  match a with
  | Translated s => newline ++ s
  | NotAvailable => newline ++ "Sorry, translation not available for this text."
  end.

(** [d[k]] *)
Definition subscript {V : Type} (d : dict V) (k : string) : outcome V :=
  match dict_get d k with
  | Some v => Ok v
  | None => Raised "KeyError"
  end.

(** [source_language in translations and
     target_language in translations[source_language]] *)
Definition has_pair (t : table) (source_language target_language : string) : bool :=
  dict_in source_language t && dict_in target_language (row t source_language).

Section Lookup.
Context `{Builtins}.

(** [for phrase in d: if phrase.lower() == text.lower(): ...; break] over the
    keys still to visit; [None] is [found = False] at the end. *)
Fixpoint scan (d : dict string) (keys : list string) (text_to_translate : string)
    : outcome (option string) :=
  match keys with
  | [] => Ok None
  | phrase :: rest =>
      if String.eqb (str_lower phrase) (str_lower text_to_translate) then
        match subscript d phrase with
        | Ok tr => Ok (Some tr)
        | Raised msg => Raised msg
        end
      else scan d rest text_to_translate
  end.

Definition lookup (t : table)
    (source_language target_language text_to_translate : string) : outcome answer :=
  let d := entries t source_language target_language in
  if has_pair t source_language target_language
     && dict_in text_to_translate d then
    match subscript d text_to_translate with
    | Ok tr => Ok (Translated tr)
    | Raised msg => Raised msg
    end
  else
    let found :=
      if has_pair t source_language target_language
      then scan d (dict_keys d) text_to_translate
      else Ok None in
    match found with
    | Ok (Some tr) => Ok (Translated tr)
    | Ok None => Ok NotAvailable
    | Raised msg => Raised msg
    end.

End Lookup.

End Translate.

(* ================================================================== *)
(** * Vocabulary of the specification *)
(* ================================================================== *)

Module TranslateSpec.
Import Py Translate.

(** The phrases the table holds for a pair of languages, when it holds the
    pair. *)
Definition phrases (t : table) (src tgt : string) : option (dict string) :=
  match dict_get t src with
  | Some r => dict_get r tgt
  | None => None
  end.

(** Every [(src, tgt, phrase, translation)] of a table, in the table's order. *)
Definition all_entries (t : table) : list (string * string * string * string) :=
  flat_map (fun '(src, r) =>
    flat_map (fun '(tgt, d) =>
      map (fun '(phrase, translation) => (src, tgt, phrase, translation)) d) r) t.

(** [phrase.lower()] on the ASCII letters. *)
Definition lower_char (c : ascii) : ascii :=
  let n := nat_of_ascii c in
  if ((65 <=? n)%nat && (n <=? 90)%nat)%bool then ascii_of_nat (n + 32) else c.

Fixpoint ascii_lower (s : string) : string :=
  match s with
  | EmptyString => EmptyString
  | String c rest => String (lower_char c) (ascii_lower rest)
  end.

(** The table after startup, for the statements that need to name it. *)
Definition derived : table :=
  match translations with
  | Ok t => t
  | Raised _ => []
  end.

(** The reverse lookup of an entry finds the entry's phrase. *)
Definition reverse_found `{Builtins} (t : table)
    (e : string * string * string * string) : bool :=
  let '(src, tgt, phrase, translation) := e in
  match lookup t tgt src translation with
  | Ok (Translated p) => String.eqb p phrase
  | _ => false
  end.

(** A row is that of English, or its only target is English. *)
Definition english_side (e : string * dict (dict string)) : bool :=
  let '(src, r) := e in
  String.eqb src "English"
  || match dict_keys r with
     | [tgt] => String.eqb tgt "English"
     | _ => false
     end.

End TranslateSpec.

Module TranscribeSpec.
Import Py Transcribe.

(** The JSON object a reply carries: the one in the body of a reply whose
    transport status is 200. *)
Definition reply_object (o : net_outcome) : option (dict pyval) :=
  match o with
  | NetReply r =>
      if Z.eqb (status_code r) 200 then
        match json r with
        | Ok (PDict d) => Some d
        | _ => None
        end
      else None
  | NetRaise _ => None
  end.

(** The status a poll reply carries ([None] of Python when the object has no
    status field). *)
Definition poll_status (o : net_outcome) : option pyval :=
  match reply_object o with
  | Some d => Some (match dict_get d "status" with Some s => s | None => PNone end)
  | None => None
  end.

Definition non_terminal (o : net_outcome) : bool :=
  match poll_status o with
  | Some s => negb (eq_str s "completed") && negb (eq_str s "failed")
  | None => false
  end.

Definition completed (o : net_outcome) : bool :=
  match poll_status o with
  | Some s => eq_str s "completed"
  | None => false
  end.

(** The value under [results] of a reply's object. *)
Definition results_of (o : net_outcome) : option pyval :=
  match reply_object o with
  | Some d => dict_get d "results"
  | None => None
  end.

(** [results.transcription]: the value under [transcription] of the object
    under [results]. *)
Definition transcription_of (o : net_outcome) : option pyval :=
  match results_of o with
  | Some (PDict res) => dict_get res "transcription"
  | _ => None
  end.

(** A reply with a success transport status. *)
Definition success_status (o : net_outcome) : bool :=
  match o with
  | NetReply r => Z.eqb (status_code r) 200
  | NetRaise _ => false
  end.

(** The job identifier a submission reply carries. *)
Definition job_identifier (o : net_outcome) : option pyval :=
  match reply_object o with
  | Some d =>
      match dict_get d "id" with
      | Some j => if truthy j then Some j else None
      | None => None
      end
  | None => None
  end.

Definition supported (language : string) : bool := dict_in language language_codes.

Definition readable (w : world) (audio_path : string) : bool :=
  match fs w audio_path with Readable => true | _ => false end.

(** The submission goes through: a supported language, a readable file and a
    reply that carries a job identifier. *)
Definition accepted (w : world) (audio_path language : string) : bool :=
  supported language && readable w audio_path
  && match job_identifier (post_reply w) with Some _ => true | None => false end.

(** The first [k] status replies carry a non-terminal status. *)
Definition pending_until (w : world) (k : nat) : Prop :=
  forall i, i < k -> non_terminal (poll_reply w i) = true.

(** ** What the function sends and prints *)

Section Sent.
Context `{Builtins}.
Variables audio_path language access_token : string.

Definition submit_url : string := "https://api.sunbird.ai/v2/transcribe".

Definition bearer : dict string := [("Authorization", "Bearer " ++ access_token)].

Definition job_url (job_id : pyval) : string :=
  "https://api.sunbird.ai/v2/jobs/" ++ py_str job_id.

(** The upload, as the function sends it for language code [lang_code]. *)
Definition upload (lang_code : string) : event :=
  EvPost submit_url bearer
    [ ("task", "speech2text");
      ("parameters", json_dumps (PDict [("language", PStr lang_code)])) ]
    [ ("audio", (basename audio_path, audio_path, "audio/mpeg")) ].

Definition uploading : event :=
  EvPrint ("Uploading audio file and requesting transcription in "
             ++ language ++ "...").

(** What the log holds when the first turn of the loop starts. *)
Definition before_polling (lang_code : string) (job_id : pyval) : list event :=
  [ EvOpen audio_path; uploading; upload lang_code;
    EvPrint ("Transcription job submitted successfully. Job ID: " ++ py_str job_id);
    EvPrint "Processing audio (this may take a moment)..." ].

End Sent.

(** What the caller gets from the way the [with] block ended. *)
Definition returned (c : completion unit) : pyval :=
  match c with
  | Normal _ => PNone
  | Returns v => v
  | Throws msg => PStr (msg_exception msg)
  end.

(** What the caller gets from the way the loop ended. *)
Definition after_polling (c : completion unit) : pyval :=
  match c with
  | Normal _ => PStr msg_timeout
  | Returns v => v
  | Throws msg => PStr (msg_exception msg)
  end.

(** What one turn of the loop adds to the log. *)
Inductive turn_of (url : string) (headers : dict string)
    (log log' : list event) : Prop :=
| TurnQuiet :
    log' = (log ++ [EvSleep 5; EvGet url headers])%list ->
    turn_of url headers log log'
| TurnPrint line :
    log' = (log ++ [EvSleep 5; EvGet url headers; EvPrint line])%list ->
    turn_of url headers log log'.

End TranscribeSpec.

(* ================================================================== *)
(** * Worlds and builtins for the examples *)
(* ================================================================== *)

Module Scenarios.
Import Py Transcribe TranscribeSpec TranslateSpec.

Definition dquote : string := String (ascii_of_nat 34) EmptyString.

Definition quoted (s : string) : string := dquote ++ s ++ dquote.

(** JSON text of a value whose strings need no escape (a float is not
    printed). *)
Fixpoint plain_dumps (v : pyval) : string :=
  match v with
  | PNone => "null"
  | PBool true => "true"
  | PBool false => "false"
  | PInt z => str_of_int z
  | PFloat _ => "0.0"
  | PStr s => quoted s
  | PList l =>
      "[" ++ (fix items (l : list pyval) : string :=
                match l with
                | [] => ""
                | x :: rest =>
                    plain_dumps x
                    ++ match rest with [] => "" | _ :: _ => ", " ++ items rest end
                end) l ++ "]"
  | PDict d =>
      "{" ++ (fix items (d : list (string * pyval)) : string :=
                match d with
                | [] => ""
                | (k, x) :: rest =>
                    quoted k ++ ": " ++ plain_dumps x
                    ++ match rest with [] => "" | _ :: _ => ", " ++ items rest end
                end) d ++ "}"
  end.

(** [repr] of the values the examples print. *)
Definition plain_repr (v : pyval) : string :=
  match v with
  | PNone => "None"
  | PBool true => "True"
  | PBool false => "False"
  | PInt z => str_of_int z
  | _ => "<" ++ type_name v ++ ">"
  end.

Definition plain : Builtins :=
  {| py_repr := plain_repr; json_dumps := plain_dumps; str_lower := ascii_lower |}.

(** A reply whose body is the JSON text of [v]. *)
Definition json_reply (code : Z) (v : pyval) : net_outcome :=
  NetReply {| status_code := code; text := plain_dumps v; json := Ok v |}.

Definition job_created : net_outcome :=
  json_reply 200 (PDict [("id", PStr "job-1")]).

Definition status_reply (status : string) : net_outcome :=
  json_reply 200 (PDict [("status", PStr status)]).

Definition done_reply (t : pyval) : net_outcome :=
  json_reply 200
    (PDict [("status", PStr "completed");
            ("results", PDict [("transcription", t)])]).

Definition unavailable : response :=
  {| status_code := 503; text := "Service Unavailable";
     json := Raised "Expecting value: line 1 column 1 (char 0)" |}.

Definition all_readable : string -> fstat := fun _ => Readable.

(** Two polls report processing, the third the transcript. *)
Definition w_hello : world :=
  {| fs := all_readable;
     post_reply := job_created;
     poll_reply := fun n =>
       if (n <? 2)%nat then status_reply "processing" else done_reply (PStr "hello") |}.

(** The job never leaves processing. *)
Definition w_stuck : world :=
  {| fs := all_readable;
     post_reply := job_created;
     poll_reply := fun _ => status_reply "processing" |}.

(** The second status request is answered 503. *)
Definition w_poll_503 : world :=
  {| fs := all_readable;
     post_reply := job_created;
     poll_reply := fun n =>
       if (n <? 1)%nat then status_reply "processing" else NetReply unavailable |}.

(** The job completes and the reply has no [results]. *)
Definition w_no_results : world :=
  {| fs := all_readable;
     post_reply := job_created;
     poll_reply := fun _ => status_reply "completed" |}.

(** The job completes and the reply has [results] set to [null]. *)
Definition w_null_results : world :=
  {| fs := all_readable;
     post_reply := job_created;
     poll_reply := fun _ =>
       json_reply 200 (PDict [("status", PStr "completed"); ("results", PNone)]) |}.

(** The upload is answered 200 with an object that has no [id]. *)
Definition w_no_id : world :=
  {| fs := all_readable;
     post_reply := json_reply 200 (PDict [("message", PStr "accepted")]);
     poll_reply := fun _ => status_reply "processing" |}.

(** The upload is answered 200 with a JSON list. *)
Definition w_list_body : world :=
  {| fs := all_readable;
     post_reply := json_reply 200 (PList []);
     poll_reply := fun _ => status_reply "processing" |}.

(** No file anywhere. *)
Definition w_no_file : world :=
  {| fs := fun _ => Missing;
     post_reply := job_created;
     poll_reply := fun _ => status_reply "processing" |}.

End Scenarios.

(* ================================================================== *)
(** * Vocabulary for the log of a call *)
(* ================================================================== *)

Module TranscribeTrace.
Import Py Transcribe TranscribeSpec.

(** The seconds a log spends in [time.sleep]. *)
Fixpoint slept (log : list event) : Z :=
  match log with
  | [] => 0
  | EvSleep seconds :: rest => (seconds + slept rest)%Z
  | _ :: rest => slept rest
  end.

Definition is_handle (e : event) : bool :=
  match e with
  | EvOpen _ | EvClose _ => true
  | _ => false
  end.

(** The events of a run of loop turns: each turn sleeps 5 seconds, asks for
    the status at [url] with [headers], and may print a line. *)
Inductive turns (url : string) (headers : dict string) : list event -> Prop :=
| turns_done : turns url headers []
| turns_quiet rest :
    turns url headers rest ->
    turns url headers (EvSleep 5 :: EvGet url headers :: rest)
| turns_print line rest :
    turns url headers rest ->
    turns url headers (EvSleep 5 :: EvGet url headers :: EvPrint line :: rest).

(** The two lines printed once the job is created. *)
Definition submitted_lines `{Builtins} (job_id : pyval) : list event :=
  [ EvPrint ("Transcription job submitted successfully. Job ID: " ++ py_str job_id);
    EvPrint "Processing audio (this may take a moment)..." ].

(** A status reply that reports the job failed. *)
Definition failed (o : net_outcome) : bool :=
  match poll_status o with
  | Some s => negb (eq_str s "completed") && eq_str s "failed"
  | None => false
  end.

(** The reason a failed reply states, as the message shows it. *)
Definition failure_reason `{Builtins} (d : dict pyval) : string :=
  py_str (match dict_get d "error" with
          | Some e => e
          | None => PStr "Unknown error"
          end).

Definition msg_job_failed (reason : string) : string :=
  "Error: Transcription job failed. Reason: " ++ reason.

(** [str(e)] of the [AttributeError] that [v.get] raises on a value that is
    not a dict. *)
Definition no_get (v : pyval) : string :=
  "'" ++ type_name v ++ "' object has no attribute 'get'".

(** The exception a status request ends in, if it does: the request itself
    raises, the body of a 200 reply is not JSON, it is JSON but no object, or
    it reports completion with a [results] that is no object. *)
Definition poll_raises (o : net_outcome) : option string :=
  match o with
  | NetRaise msg => Some msg
  | NetReply r =>
      if Z.eqb (status_code r) 200 then
        match json r with
        | Raised msg => Some msg
        | Ok (PDict d) =>
            if completed o then
              match dict_get d "results" with
              | None | Some (PDict _) => None
              | Some v => Some (no_get v)
              end
            else None
        | Ok v => Some (no_get v)
        end
      else None
  end.

(** The value is text. *)
Definition is_str (v : pyval) : bool :=
  match v with
  | PStr _ => true
  | _ => false
  end.

End TranscribeTrace.

(* ================================================================== *)
(** * The command-line programs *)
(* ================================================================== *)

Module Console.
Import Py.

(** [str.strip] and [str.title], which both programs apply to what the user
    types; like [str.lower] they are the interpreter's. *)
Class TextBuiltins : Type := {
  str_strip : string -> string;
  str_title : string -> string
}.

(** How a program ends: it returns from [main], calls [sys.exit], or dies of
    an exception nobody catches. *)
Inductive ending : Type :=
| Finished
| Exited (code : Z)
| Crashed (exc : string).

(** [EOFError], which [input()] raises when standard input has no line left. *)
Definition eof : string := "EOF when reading a line".

Definition nl : string := String (ascii_of_nat 10) EmptyString.

(** [x in xs] for a list of strings. *)
Definition mem (x : string) (xs : list string) : bool :=
  existsb (String.eqb x) xs.

(** [sep.join(xs)] *)
Fixpoint join (sep : string) (xs : list string) : string :=
  match xs with
  | [] => ""
  | [x] => x
  | x :: rest => x ++ sep ++ join sep rest
  end.

End Console.

Module TranscribeMain.
Import Py Transcribe Console.

(** What [parser.parse_args()] does: hand back [args.token], or leave the
    program (usage error, [--help]). *)
Inductive parsed : Type :=
| ParsedToken (token : option string)
| ParseExit (code : Z).

(** What the program is started with.  [check_audio_length] decodes the file
    with pydub and compares a float; it is taken here as what it answers and
    prints for a path. *)
Record host : Type := {
  environ_token : option string;
  parse_args : parsed;
  stdin : list string;
  check_audio_length : string -> bool * list string
}.

(** [not access_token] *)
Definition no_token (access_token : option string) : bool :=
  match access_token with
  | None => true
  | Some s => String.eqb s ""
  end.

Definition languages : list string :=
  ["English"; "Luganda"; "Runyankole"; "Ateso"; "Lugbara"; "Acholi"].

Definition token_warning : list event :=
  [ EvPrint "Warning: No API token found in environment variables or command line arguments.";
    EvPrint "You can set the token by running: export SUNBIRD_API_TOKEN='your_token'";
    EvPrint "Or provide it when prompted.";
    EvPrint (nl ++ "Please enter your Sunbird API access token:") ].

Definition msg_no_token : string :=
  "Error: No API token provided. Cannot proceed without authentication.".

Definition greeting : list event :=
  [ EvPrint "Welcome to the Audio Transcription Tool for Ugandan Languages!";
    EvPrint (nl ++ "Please provide path to the audio file (Audio length less than 5 minutes):") ].

Definition ask_language : string :=
  nl ++ "Please choose the target language: (one of English, Luganda, Runyankole, Ateso, Lugbara or Acholi):".

Definition msg_bad_language : string :=
  "Error: Unsupported language. Please choose one of: " ++ join ", " languages.

Section Program.
Context `{Builtins} `{TextBuiltins}.

(** The first part of [main]: the token from the environment, else from the
    command line, else from the prompt; the program leaves when there is
    none.  The result is the token with the input left to read, or the way
    the program ended, and what was printed. *)
Definition resolve_token (h : host)
    : (ending + string * list string) * list event :=
  let access_token := environ_token h in
  match (if no_token access_token then parse_args h else ParsedToken access_token) with
  | ParseExit code => (inl (Exited code), [])
  | ParsedToken access_token =>
      if no_token access_token then
        match stdin h with
        | [] => (inl (Crashed eof), token_warning)
        | line :: rest =>
            let access_token := str_strip line in
            if String.eqb access_token "" then
              (inl (Exited 1), (token_warning ++ [EvPrint msg_no_token])%list)
            else (inr (access_token, rest), token_warning)
        end
      else
        match access_token with
        | Some token => (inr (token, stdin h), [])
        | None => (inl (Exited 1), [EvPrint msg_no_token])
        end
  end.

(** The rest of [main], once the token is known. *)
Definition transcribe_session (h : host) (w : world) (access_token : string)
    (input : list string) : ending * list event :=
  match input with
  | [] => (Crashed eof, greeting)
  | line :: input' =>
      let audio_path := str_strip line in
      if negb (match fs w audio_path with Missing => false | _ => true end) then
        (Exited 1, (greeting ++ [EvPrint (msg_no_file audio_path)])%list)
      else
        let '(ok, lines) := check_audio_length h audio_path in
        let log := (greeting ++ map EvPrint lines)%list in
        if negb ok then (Exited 1, log)
        else
          let log := (log ++ [EvPrint ask_language])%list in
          match input' with
          | [] => (Crashed eof, log)
          | line' :: _ =>
              let target_language := str_title (str_strip line') in
              if negb (mem target_language languages) then
                (Exited 1, (log ++ [EvPrint msg_bad_language])%list)
              else
                match transcribe_audio w audio_path target_language access_token with
                | (Ok transcription, events) =>
                    (Finished,
                     (log ++ events
                        ++ [ EvPrint (nl ++ "Audio transcription text in "
                                        ++ target_language ++ ":");
                             EvPrint (py_str transcription) ])%list)
                | (Raised exc, events) => (Crashed exc, (log ++ events)%list)
                end
          end
  end.

Definition main (h : host) (w : world) : ending * list event :=
  match resolve_token h with
  | (inl e, log) => (e, log)
  | (inr (access_token, input), log) =>
      let '(e, log') := transcribe_session h w access_token input in
      (e, (log ++ log')%list)
  end.

End Program.

End TranscribeMain.

Module TranslateMain.
Import Py Translate Console.

Definition ask_source : string :=
  nl ++ "Please choose the source language: (one of English, Luganda, Runyankole, Ateso, Lugbara or Acholi)".

Definition ask_target : string :=
  nl ++ "Please choose the target language: (one of English, Luganda, Runyankole, Ateso, Lugbara or Acholi):".

Definition msg_invalid : string :=
  "Invalid language. Please choose one of: " ++ join ", " languages.

Definition msg_same : string := "Source and target languages cannot be the same.".

Definition ask_text : string := nl ++ "Enter the text to translate:".

Definition ask_again : string :=
  nl ++ "Would you like to translate something else? (yes/no)".

Definition goodbye : string :=
  "Thank you for using the Ugandan Language Translator. Goodbye!".

Definition welcome : string := "Welcome to the Ugandan Language Translator!".

(** The lines the program prints whatever the table holds. *)
Definition fixed_lines : list string :=
  [ welcome; ask_source; ask_target; msg_invalid; msg_same; ask_text; ask_again;
    goodbye; printed NotAvailable ].

(** The lines of a run that went on: those printed first, then those of the
    rest of the run. *)
Definition after (lines : list string) (r : list string * ending)
    : list string * ending :=
  let '(out, e) := r in ((lines ++ out)%list, e).

Section Program.
Context `{Builtins} `{TextBuiltins}.

(** The [while True] loop over the lines left on standard input; the result
    is what is printed and how the program ends.  [continue] and the end of
    the body go round again on the lines that are left. *)
Fixpoint session (t : table) (input : list string) : list string * ending :=
  match input with
  | [] => ([ask_source], Crashed eof)
  | line1 :: input1 =>
      let source_language := str_title (str_strip line1) in
      if negb (mem source_language languages) then
        after [ask_source; msg_invalid] (session t input1)
      else
        match input1 with
        | [] => ([ask_source; ask_target], Crashed eof)
        | line2 :: input2 =>
            let target_language := str_title (str_strip line2) in
            if negb (mem target_language languages) then
              after [ask_source; ask_target; msg_invalid] (session t input2)
            else if String.eqb source_language target_language then
              after [ask_source; ask_target; msg_same] (session t input2)
            else
              match input2 with
              | [] => ([ask_source; ask_target; ask_text], Crashed eof)
              | line3 :: input3 =>
                  let text_to_translate := str_strip line3 in
                  match lookup t source_language target_language text_to_translate with
                  | Raised exc => ([ask_source; ask_target; ask_text], Crashed exc)
                  | Ok a =>
                      let shown :=
                        [ask_source; ask_target; ask_text; printed a; ask_again] in
                      match input3 with
                      | [] => (shown, Crashed eof)
                      | line4 :: input4 =>
                          if negb (mem (str_strip (str_lower line4)) ["yes"; "y"]) then
                            ((shown ++ [goodbye])%list, Finished)
                          else after shown (session t input4)
                      end
                  end
              end
        end
  end.

(** [main]: the table is completed, then the loop runs. *)
Definition main (input : list string) : list string * ending :=
  match translations with
  | Raised exc => ([], Crashed exc)
  | Ok t => after [welcome] (session t input)
  end.

End Program.

(** What a line of a session is: one of the fixed lines, or a translation
    the table holds for two different languages of the list. *)
Definition from_table (t : table) (line : string) : Prop :=
  In line fixed_lines
  \/ exists src tgt phrase tr,
       In src languages /\ In tgt languages /\ src <> tgt
       /\ dict_get (entries t src tgt) phrase = Some tr
       /\ line = printed (Translated tr).

Definition all_from_table (t : table) (r : list string * ending) : Prop :=
  forall line, In line (fst r) -> from_table t line.

(** How a session ends, and what it printed last. *)
Definition ends_cleanly (r : list string * ending) : Prop :=
  (snd r = Finished /\ exists shown, fst r = (shown ++ [goodbye])%list)
  \/ snd r = Crashed eof.

End TranslateMain.

Module TranslateReverse.
Import Py Translate.

(** What the inner loop leaves under the reverse pair, from what was there. *)
Definition reversed (d old : dict string) : dict string :=
  fold_left (fun e '(phrase, translation) => dict_set e translation phrase) d old.

(** No language of the table is paired with itself. *)
Definition no_self_pair (t : table) : Prop :=
  forall a, dict_in a (row t a) = false.

(** The entry has its mirror image under the reversed pair. *)
Definition mirrored (t : table) (e : string * string * string * string) : bool :=
  let '(src, tgt, phrase, translation) := e in
  match dict_get (entries t tgt src) translation with
  | Some p => String.eqb p phrase
  | None => false
  end.

End TranslateReverse.

(* ================================================================== *)
(** * More worlds, hosts and tables for the examples *)
(* ================================================================== *)

Module MoreScenarios.
Import Py Transcribe Translate TranslateSpec Scenarios Console TranscribeMain.

(** [str.strip] and [str.title] on ASCII text. *)
Definition is_space (c : ascii) : bool :=
  let n := nat_of_ascii c in
  ((n =? 32)%nat || ((9 <=? n)%nat && (n <=? 13)%nat))%bool.

Definition is_upper (c : ascii) : bool :=
  let n := nat_of_ascii c in ((65 <=? n)%nat && (n <=? 90)%nat)%bool.

Definition is_lower (c : ascii) : bool :=
  let n := nat_of_ascii c in ((97 <=? n)%nat && (n <=? 122)%nat)%bool.

Definition upper_char (c : ascii) : ascii :=
  if is_lower c then ascii_of_nat (nat_of_ascii c - 32) else c.

Fixpoint lstrip (s : string) : string :=
  match s with
  | EmptyString => EmptyString
  | String c rest => if is_space c then lstrip rest else s
  end.

Fixpoint rstrip (s : string) : string :=
  match s with
  | EmptyString => EmptyString
  | String c rest =>
      match rstrip rest with
      | EmptyString => if is_space c then EmptyString else String c EmptyString
      | kept => String c kept
      end
  end.

Definition ascii_strip (s : string) : string := rstrip (lstrip s).

Fixpoint title_from (inside_word : bool) (s : string) : string :=
  match s with
  | EmptyString => EmptyString
  | String c rest =>
      if (is_upper c || is_lower c)%bool then
        String (if inside_word then lower_char c else upper_char c)
          (title_from true rest)
      else String c (title_from false rest)
  end.

Definition ascii_title (s : string) : string := title_from false s.

Definition plain_text : TextBuiltins :=
  {| str_strip := ascii_strip; str_title := ascii_title |}.

(** The job fails and the service says why. *)
Definition w_failed : world :=
  {| fs := all_readable;
     post_reply := job_created;
     poll_reply := fun _ =>
       json_reply 200
         (PDict [("status", PStr "failed"); ("error", PStr "audio is silent")]) |}.

(** The upload cannot be sent. *)
Definition w_post_down : world :=
  {| fs := all_readable;
     post_reply := NetRaise "Connection refused";
     poll_reply := fun _ => status_reply "processing" |}.

(** The upload is answered 503. *)
Definition w_post_503 : world :=
  {| fs := all_readable;
     post_reply := NetReply unavailable;
     poll_reply := fun _ => status_reply "processing" |}.

(** The file is there and cannot be opened. *)
Definition w_locked : world :=
  {| fs := fun _ => Unopenable "[Errno 13] Permission denied: 'clip.mp3'";
     post_reply := job_created;
     poll_reply := fun _ => status_reply "processing" |}.


(** The token is typed at the prompt. *)
Definition h_prompt : host :=
  {| environ_token := None;
     parse_args := ParsedToken None;
     stdin := ["  secret "; "clip.mp3"; "Luganda"];
     check_audio_length := fun _ => (true, []) |}.

(** Two phrases with one translation. *)
Definition t_twice : table :=
  [("English", [("Luganda", [("Hello", "Oli otya"); ("Hi", "Oli otya")])])].

(** A language paired with itself. *)
Definition t_self : table :=
  [("English", [("English", [("Hello", "Hi")])])].

End MoreScenarios.

(* ================================================================== *)
(** * Properties of transcribe.py *)
(* ================================================================== *)

Module TranscribeProps.
Import Py Transcribe TranscribeSpec Scenarios.

(** ** Counting the requests of a log *)

Lemma n_gets_app (l1 l2 : list event) : n_gets (l1 ++ l2) = n_gets l1 + n_gets l2.
Proof. unfold n_gets. now rewrite filter_app, length_app. Qed.

Lemma n_posts_app (l1 l2 : list event) : n_posts (l1 ++ l2) = n_posts l1 + n_posts l2.
Proof. unfold n_posts. now rewrite filter_app, length_app. Qed.

Lemma n_requests_split (l : list event) : n_requests l = n_posts l + n_gets l.
Proof.
  unfold n_requests, n_posts, n_gets, is_network.
  induction l as [|e l IH]; [reflexivity|].
  destruct e; simpl; lia.
Qed.

Section Polling.
Context `{Builtins}.
Variable w : world.
Variables (url : string) (headers : dict string).

Lemma turn_of_counts log log' :
  turn_of url headers log log' ->
  n_gets log' = S (n_gets log) /\ n_posts log' = n_posts log.
Proof.
  intros [-> | line ->]; rewrite n_gets_app, n_posts_app; cbn; lia.
Qed.

(** The loop body, one case per way a status request can end. *)
Lemma poll_once_cases log :
  poll_once url headers w log =
  let log1 := (log ++ [EvSleep 5; EvGet url headers])%list in
  match poll_reply w (n_gets log) with
  | NetRaise msg => (Throws msg, log1)
  | NetReply r =>
      if negb (Z.eqb (status_code r) 200) then (Returns (PStr (msg_poll_error r)), log1)
      else
        match json r with
        | Raised msg => (Throws msg, log1)
        | Ok status_data =>
            match py_get status_data "status" PNone with
            | Raised msg => (Throws msg, log1)
            | Ok status =>
                if eq_str status "completed" then
                  match py_get status_data "results" (PDict []) with
                  | Raised msg => (Throws msg, log1)
                  | Ok results =>
                      match py_get results "transcription" (PStr msg_no_transcription) with
                      | Raised msg => (Throws msg, log1)
                      | Ok transcript => (Returns transcript, log1)
                      end
                  end
                else if eq_str status "failed" then
                  match msg_failed status_data with
                  | Raised msg => (Throws msg, log1)
                  | Ok reason => (Returns (PStr reason), log1)
                  end
                else
                  (Normal tt,
                   (log1 ++ [EvPrint ("Job status: " ++ py_str status
                                        ++ ". Waiting for completion...")])%list)
            end
        end
  end.
Proof.
  unfold poll_once, bind, sleep, emit, requests_get, print, emit, return_, lift,
    pure, raise.
  rewrite n_gets_app. cbn [n_gets filter is_get List.length]. rewrite Nat.add_0_r.
  rewrite <- app_assoc. cbn [app].
  destruct (poll_reply w (n_gets log)) as [msg|r]; [reflexivity|].
  destruct (negb (status_code r =? 200)%Z); [reflexivity|].
  destruct (json r) as [status_data|msg]; [|reflexivity].
  destruct (py_get status_data "status" PNone) as [status|msg]; [|reflexivity].
  destruct (eq_str status "completed").
  - destruct (py_get status_data "results" (PDict [])) as [results|msg]; [|reflexivity].
    destruct (py_get results "transcription" (PStr msg_no_transcription)); reflexivity.
  - destruct (eq_str status "failed").
    + destruct (msg_failed status_data); reflexivity.
    + reflexivity.
Qed.

Lemma poll_once_turn log c log' :
  poll_once url headers w log = (c, log') -> turn_of url headers log log'.
Proof.
  rewrite poll_once_cases. cbv zeta.
  repeat match goal with
         | |- context [match ?x with _ => _ end] => destruct x
         end;
    intros E; inversion E; subst;
    first [ now apply TurnQuiet
          | eapply TurnPrint; rewrite <- app_assoc; reflexivity ].
Qed.

Lemma poll_once_non_terminal log :
  non_terminal (poll_reply w (n_gets log)) = true ->
  exists log',
    poll_once url headers w log = (Normal tt, log')
    /\ turn_of url headers log log'.
Proof.
  intros Hn. rewrite poll_once_cases. cbv zeta.
  unfold non_terminal, poll_status, reply_object in Hn.
  destruct (poll_reply w (n_gets log)) as [msg|r]; [discriminate|].
  destruct (status_code r =? 200)%Z; [|discriminate]. cbn [negb].
  destruct (json r) as [[| | | | | |d]|msg]; try discriminate.
  cbn [py_get].
  destruct (dict_get d "status") as [s|].
  - apply andb_true_iff in Hn as [Hc Hf].
    apply negb_true_iff in Hc, Hf. rewrite Hc, Hf.
    eexists; split; [reflexivity|]. eapply TurnPrint. rewrite <- app_assoc. reflexivity.
  - cbn [eq_str]. eexists; split; [reflexivity|].
    eapply TurnPrint. rewrite <- app_assoc. reflexivity.
Qed.

Lemma poll_once_completed log t :
  completed (poll_reply w (n_gets log)) = true ->
  transcription_of (poll_reply w (n_gets log)) = Some t ->
  poll_once url headers w log =
  (Returns t, (log ++ [EvSleep 5; EvGet url headers])%list).
Proof.
  intros Hc Ht. rewrite poll_once_cases. cbv zeta.
  unfold completed, poll_status, transcription_of, results_of, reply_object in Hc, Ht.
  destruct (poll_reply w (n_gets log)) as [msg|r]; [discriminate|].
  destruct (status_code r =? 200)%Z; [|discriminate]. cbn [negb].
  destruct (json r) as [[| | | | | |d]|msg]; try discriminate.
  cbn [py_get].
  destruct (dict_get d "status") as [s|]; [|discriminate].
  rewrite Hc.
  destruct (dict_get d "results") as [[| | | | | |res]|]; try discriminate.
  cbn [py_get]. now rewrite Ht.
Qed.

Lemma poll_once_failure log r :
  poll_reply w (n_gets log) = NetReply r ->
  status_code r <> 200%Z ->
  poll_once url headers w log =
  (Returns (PStr (msg_poll_error r)), (log ++ [EvSleep 5; EvGet url headers])%list).
Proof.
  intros Hr Hs. rewrite poll_once_cases, Hr. cbv zeta.
  apply Z.eqb_neq in Hs. now rewrite Hs.
Qed.

(** The loop makes at most as many status requests as it has turns left, and
    no upload. *)
Lemma poll_loop_counts remaining : forall log c log',
  poll_loop remaining url headers w log = (c, log') ->
  n_gets log <= n_gets log' <= n_gets log + remaining /\ n_posts log' = n_posts log.
Proof.
  induction remaining as [|remaining IH]; intros log c log' E.
  - inversion E; subst. lia.
  - cbn [poll_loop] in E. unfold bind in E.
    destruct (poll_once url headers w log) as [c1 log1] eqn:E1.
    apply poll_once_turn, turn_of_counts in E1 as [Hg Hp].
    destruct c1 as [[]|v|msg].
    + apply IH in E. lia.
    + inversion E; subst. lia.
    + inversion E; subst. lia.
Qed.

(** Turns whose replies carry a non-terminal status are gone through. *)
Lemma poll_loop_pending k : forall remaining log,
  (forall i, i < k -> non_terminal (poll_reply w (n_gets log + i)) = true) ->
  exists log',
    poll_loop (k + remaining) url headers w log = poll_loop remaining url headers w log'
    /\ n_gets log' = n_gets log + k /\ n_posts log' = n_posts log.
Proof.
  induction k as [|k IH]; intros remaining log Hp.
  - exists log. cbn. repeat split; lia.
  - cbn [Nat.add poll_loop]. unfold bind.
    destruct (poll_once_non_terminal log) as (log1 & E1 & T1).
    { specialize (Hp 0). rewrite Nat.add_0_r in Hp. apply Hp. lia. }
    apply turn_of_counts in T1 as [Hg1 Hp1].
    rewrite E1.
    destruct (IH remaining log1) as (log' & E & Hg & Hpp).
    { intros i Hi. rewrite Hg1.
      replace (S (n_gets log) + i) with (n_gets log + S i) by lia.
      apply Hp. lia. }
    exists log'. repeat split; [exact E | lia | lia].
Qed.

(** The loop only adds to the log. *)
Lemma poll_loop_extends remaining : forall log c log',
  poll_loop remaining url headers w log = (c, log') ->
  exists tail, log' = (log ++ tail)%list.
Proof.
  induction remaining as [|remaining IH]; intros log c log' E.
  - inversion E; subst. exists []. now rewrite app_nil_r.
  - cbn [poll_loop] in E. unfold bind in E.
    destruct (poll_once url headers w log) as [c1 log1] eqn:E1.
    assert (H1 : exists tail, log1 = (log ++ tail)%list).
    { apply poll_once_turn in E1 as [-> | line ->]; now eexists. }
    destruct H1 as [tail1 ->].
    destruct c1 as [[]|v|msg].
    + apply IH in E as [tail ->]. exists (tail1 ++ tail)%list. now rewrite app_assoc.
    + inversion E; subst. now eexists.
    + inversion E; subst. now eexists.
Qed.

(** A turn that returns ends the loop there: the requests made are those of
    the turns gone through and this one. *)
Lemma poll_loop_stops n k v : forall log,
  k < n ->
  (forall i, i < k -> non_terminal (poll_reply w (n_gets log + i)) = true) ->
  (forall log1, n_gets log1 = n_gets log + k ->
     poll_once url headers w log1 =
     (Returns v, (log1 ++ [EvSleep 5; EvGet url headers])%list)) ->
  exists log',
    poll_loop n url headers w log = (Returns v, log')
    /\ n_gets log' = n_gets log + S k /\ n_posts log' = n_posts log.
Proof.
  intros log Hk Hp Hv.
  replace n with (k + S (n - S k)) by lia.
  destruct (poll_loop_pending k (S (n - S k)) log Hp) as (log1 & E & Hg & Hpo).
  rewrite E. cbn [poll_loop]. unfold bind. rewrite (Hv log1 Hg).
  eexists; split; [reflexivity|].
  rewrite n_gets_app, n_posts_app. cbn. lia.
Qed.

(** When every turn sees a non-terminal status the loop runs out. *)
Lemma poll_loop_runs_out n log :
  (forall i, i < n -> non_terminal (poll_reply w (n_gets log + i)) = true) ->
  exists log',
    poll_loop n url headers w log = (Normal tt, log')
    /\ n_gets log' = n_gets log + n /\ n_posts log' = n_posts log.
Proof.
  intros Hp.
  destruct (poll_loop_pending n 0 log Hp) as (log1 & E & Hg & Hpo).
  rewrite Nat.add_0_r in E. rewrite E. exists log1. now cbn.
Qed.

End Polling.

Section Calls.
Context `{Builtins}.
Variable w : world.
Variables audio_path language access_token : string.

Lemma upload_and_poll_cases lang_code log :
  upload_and_poll audio_path language lang_code submit_url (bearer access_token) w log =
  let log1 :=
    (log ++ [uploading language; upload audio_path access_token lang_code])%list in
  match post_reply w with
  | NetRaise msg => (Throws msg, log1)
  | NetReply r =>
      if negb (Z.eqb (status_code r) 200) then (Returns (PStr (msg_api_failed r)), log1)
      else
        match json r with
        | Raised msg => (Throws msg, log1)
        | Ok response_data =>
            match py_get response_data "id" PNone with
            | Raised msg => (Throws msg, log1)
            | Ok job_id =>
                if negb (truthy job_id) then (Returns (PStr msg_no_job_id), log1)
                else
                  let '(c, log2) :=
                    poll_loop max_attempts (job_url job_id) (bearer access_token) w
                      (log1 ++
                       [ EvPrint ("Transcription job submitted successfully. Job ID: "
                                    ++ py_str job_id);
                         EvPrint "Processing audio (this may take a moment)..." ])%list in
                  (match c with
                   | Normal _ => Returns (PStr msg_timeout)
                   | Returns v => Returns v
                   | Throws msg => Throws msg
                   end, log2)
            end
        end
  end.
Proof.
  unfold upload_and_poll, bind, print, emit, requests_post, return_, lift, pure, raise.
  rewrite <- app_assoc. cbn [app]. cbv zeta.
  fold (uploading language). fold (upload audio_path access_token lang_code).
  destruct (post_reply w) as [msg|r]; [reflexivity|].
  destruct (negb (status_code r =? 200)%Z); [reflexivity|].
  destruct (json r) as [response_data|msg]; [|reflexivity].
  destruct (py_get response_data "id" PNone) as [job_id|msg]; [|reflexivity].
  destruct (negb (truthy job_id)); [reflexivity|].
  rewrite <- !app_assoc. cbn [app]. fold (job_url job_id).
  destruct (poll_loop max_attempts (job_url job_id) (bearer access_token) w _)
    as [[[]|v|msg] log2];
    reflexivity.
Qed.

Lemma transcribe_audio_cases :
  transcribe_audio w audio_path language access_token =
  match dict_get language_codes language with
  | None => (Ok (PStr (msg_unsupported language)), [])
  | Some lang_code =>
      match fs w audio_path with
      | Missing => (Ok (PStr (msg_no_file audio_path)), [])
      | Unopenable err => (Ok (PStr (msg_exception err)), [])
      | Readable =>
          let '(c, log) :=
            upload_and_poll audio_path language lang_code submit_url
              (bearer access_token) w
              [EvOpen audio_path] in
          (Ok (returned c), (log ++ [EvClose audio_path])%list)
      end
  end.
Proof.
  unfold transcribe_audio, transcribe_body.
  destruct (dict_get language_codes language) as [lang_code|]; [|reflexivity].
  unfold try_except, bind, os_path_exists, with_open, return_.
  fold submit_url. fold (bearer access_token).
  destruct (fs w audio_path) as [|err|] eqn:E; cbn [negb]; cbv beta iota;
    rewrite ?E; try reflexivity.
  cbn [app].
  destruct (upload_and_poll audio_path language lang_code submit_url
              (bearer access_token) w _)
    as [[[]|v|msg] log]; reflexivity.
Qed.

Lemma n_gets_before_polling lang_code job_id :
  n_gets (before_polling audio_path language access_token lang_code job_id) = 0.
Proof. reflexivity. Qed.

Lemma n_posts_before_polling lang_code job_id :
  n_posts (before_polling audio_path language access_token lang_code job_id) = 1.
Proof. reflexivity. Qed.

(** An accepted submission leads to the polling loop, and the call returns
    what the loop yields. *)
Lemma accepted_run :
  accepted w audio_path language = true ->
  exists lang_code job_id,
    dict_get language_codes language = Some lang_code
    /\ job_identifier (post_reply w) = Some job_id
    /\ transcribe_audio w audio_path language access_token =
       let '(c, log) :=
         poll_loop max_attempts (job_url job_id) (bearer access_token) w
           (before_polling audio_path language access_token lang_code job_id) in
       (Ok (after_polling c), (log ++ [EvClose audio_path])%list).
Proof.
  unfold accepted, supported, readable, dict_in. intros Ha.
  apply andb_true_iff in Ha as [Ha Hj]. apply andb_true_iff in Ha as [Hl Hf].
  destruct (dict_get language_codes language) as [lang_code|] eqn:El; [|discriminate].
  destruct (fs w audio_path) eqn:Ef; try discriminate.
  destruct (job_identifier (post_reply w)) as [job_id|] eqn:Ej; [|discriminate].
  exists lang_code, job_id. repeat split.
  rewrite transcribe_audio_cases, El, Ef, upload_and_poll_cases. cbv zeta.
  unfold job_identifier, reply_object in Ej.
  destruct (post_reply w) as [msg|r]; [discriminate|].
  destruct (status_code r =? 200)%Z; [|discriminate]. cbn [negb].
  destruct (json r) as [[| | | | | |d]|msg]; try discriminate.
  cbn [py_get].
  destruct (dict_get d "id") as [j|]; [|discriminate].
  destruct (truthy j) eqn:Et; [|discriminate].
  injection Ej as ->. cbn [negb app].
  fold (before_polling audio_path language access_token lang_code job_id).
  destruct (poll_loop max_attempts (job_url job_id) (bearer access_token) w _)
    as [[[]|v|msg] log];
    reflexivity.
Qed.

(** The function returns a value whatever the world does: nothing it raises
    escapes. *)
Lemma transcribe_audio_returns :
  exists v, fst (transcribe_audio w audio_path language access_token) = Ok v.
Proof.
  rewrite transcribe_audio_cases.
  destruct (dict_get language_codes language); [|now eexists].
  destruct (fs w audio_path); try now eexists.
  destruct (upload_and_poll _ _ _ _ _ _ _). now eexists.
Qed.

(** At most one upload and at most [max_attempts] status requests. *)
Lemma transcribe_audio_requests :
  n_posts (snd (transcribe_audio w audio_path language access_token)) <= 1
  /\ n_gets (snd (transcribe_audio w audio_path language access_token)) <= max_attempts.
Proof.
  rewrite transcribe_audio_cases.
  destruct (dict_get language_codes language) as [lang_code|]; [|cbn; lia].
  destruct (fs w audio_path); try (cbn; lia).
  rewrite upload_and_poll_cases. cbv zeta.
  assert (Hsmall : forall (c : completion unit),
    n_posts (snd (Ok (returned c),
                  (([EvOpen audio_path]
                      ++ [uploading language;
                          upload audio_path access_token lang_code])
                     ++ [EvClose audio_path])%list)) <= 1
    /\ n_gets (snd (Ok (returned c),
                  (([EvOpen audio_path]
                      ++ [uploading language;
                          upload audio_path access_token lang_code])
                     ++ [EvClose audio_path])%list)) <= max_attempts).
  { intros c. cbn. lia. }
  destruct (post_reply w) as [msg|r]; [apply Hsmall|].
  destruct (negb (status_code r =? 200)%Z); [apply Hsmall|].
  destruct (json r) as [response_data|msg]; [|apply Hsmall].
  destruct (py_get response_data "id" PNone) as [job_id|msg]; [|apply Hsmall].
  destruct (negb (truthy job_id)); [apply Hsmall|].
  destruct (poll_loop max_attempts (job_url job_id) (bearer access_token) w _)
    as [c log] eqn:E.
  apply poll_loop_counts in E as [Hg Hp].
  cbn [snd]. rewrite n_posts_app, n_gets_app. cbn in Hg, Hp |- *. lia.
Qed.

End Calls.


Section Claims.
Context `{Builtins}.
Variable w : world.
Variables audio_path language access_token : string.


Lemma pending_from_start (k : nat) (lang_code : string) (job_id : pyval) :
  pending_until w k ->
  forall i, i < k ->
    non_terminal
      (poll_reply w (n_gets (before_polling audio_path language access_token
                               lang_code job_id) + i)) = true.
Proof. intros Hp i Hi. rewrite n_gets_before_polling. now apply Hp. Qed.

(** C2.  When the submission is accepted, the first [k] status replies
    ([k] fewer than 30) carry a non-terminal status and the next one carries
    status ["completed"] with a value [t] under [results.transcription], the
    function returns exactly [t]. *)
Theorem completed_returns_transcription (k : nat) (t : pyval) :
  accepted w audio_path language = true ->
  k < max_attempts ->
  pending_until w k ->
  completed (poll_reply w k) = true ->
  transcription_of (poll_reply w k) = Some t ->
  fst (transcribe_audio w audio_path language access_token) = Ok t.
Proof.
  intros Ha Hk Hp Hc Ht.
  destruct (accepted_run w audio_path language access_token Ha)
    as (lang_code & job_id & _ & _ & E).
  rewrite E.
  destruct (poll_loop_stops w (job_url job_id) (bearer access_token) max_attempts k t
              (before_polling audio_path language access_token lang_code job_id) Hk)
    as (log' & E' & _).
  - now apply pending_from_start.
  - intros log1 Hg. rewrite n_gets_before_polling in Hg. cbn in Hg.
    apply poll_once_completed; now rewrite Hg.
  - now rewrite E'.
Qed.

(** C3.  The function makes at most 30 status requests, in any world; and
    when the submission is accepted and all 30 replies carry a non-terminal
    status, the loop ends after exactly 30 requests and the function returns
    the timeout message. *)
Theorem polling_is_bounded :
  n_gets (snd (transcribe_audio w audio_path language access_token)) <= max_attempts
  /\ (accepted w audio_path language = true ->
      pending_until w max_attempts ->
      fst (transcribe_audio w audio_path language access_token)
      = Ok (PStr msg_timeout)
      /\ n_gets (snd (transcribe_audio w audio_path language access_token))
         = max_attempts).
Proof.
  split; [apply transcribe_audio_requests|].
  intros Ha Hp.
  destruct (accepted_run w audio_path language access_token Ha)
    as (lang_code & job_id & _ & _ & E).
  rewrite E.
  destruct (poll_loop_runs_out w (job_url job_id) (bearer access_token) max_attempts
              (before_polling audio_path language access_token lang_code job_id))
    as (log' & E' & Hg & _).
  - now apply pending_from_start.
  - rewrite E'. cbn [fst snd after_polling]. split; [reflexivity|].
    rewrite n_gets_app, Hg, n_gets_before_polling.
    change (n_gets [EvClose audio_path]) with 0. lia.
Qed.

(** C4.  When a status request is answered with a transport status other
    than 200, the function returns the poll error built from that reply, and
    that request is the last one: after [k] non-terminal replies the log has
    [k + 1] status requests. *)
Theorem poll_failure_ends_polling (k : nat) (r : response) :
  accepted w audio_path language = true ->
  k < max_attempts ->
  pending_until w k ->
  poll_reply w k = NetReply r ->
  status_code r <> 200%Z ->
  fst (transcribe_audio w audio_path language access_token) = Ok (PStr (msg_poll_error r))
  /\ n_gets (snd (transcribe_audio w audio_path language access_token)) = S k.
Proof.
  intros Ha Hk Hp Hr Hs.
  destruct (accepted_run w audio_path language access_token Ha)
    as (lang_code & job_id & _ & _ & E).
  rewrite E.
  destruct (poll_loop_stops w (job_url job_id) (bearer access_token) max_attempts k
              (PStr (msg_poll_error r))
              (before_polling audio_path language access_token lang_code job_id) Hk)
    as (log' & E' & Hg & _).
  - now apply pending_from_start.
  - intros log1 Hg. rewrite n_gets_before_polling in Hg. cbn in Hg.
    apply poll_once_failure; [now rewrite Hg | exact Hs].
  - rewrite E'. cbn [fst snd after_polling]. split; [reflexivity|].
    rewrite n_gets_app, Hg, n_gets_before_polling.
    change (n_gets [EvClose audio_path]) with 0. lia.
Qed.

(** C5, as amended.  When a status reply carries status ["completed"] and
    its object has no [results] field, or its [results] field is an object
    with no [transcription] field, the function returns the placeholder
    ["No transcription available"]. *)
Theorem completed_without_transcription (k : nat) :
  accepted w audio_path language = true ->
  k < max_attempts ->
  pending_until w k ->
  completed (poll_reply w k) = true ->
  results_of (poll_reply w k) = None
  \/ (exists res, results_of (poll_reply w k) = Some (PDict res)
                  /\ dict_get res "transcription" = None) ->
  fst (transcribe_audio w audio_path language access_token)
  = Ok (PStr msg_no_transcription).
Proof.
  intros Ha Hk Hp Hc Hres.
  destruct (accepted_run w audio_path language access_token Ha)
    as (lang_code & job_id & _ & _ & E).
  rewrite E.
  destruct (poll_loop_stops w (job_url job_id) (bearer access_token) max_attempts k
              (PStr msg_no_transcription)
              (before_polling audio_path language access_token lang_code job_id) Hk)
    as (log' & E' & _).
  - now apply pending_from_start.
  - intros log1 Hg. rewrite n_gets_before_polling in Hg. cbn in Hg.
    rewrite poll_once_cases, Hg. cbv zeta.
    unfold completed, poll_status, results_of, reply_object in Hc, Hres.
    destruct (poll_reply w k) as [msg|r]; [discriminate|].
    destruct (status_code r =? 200)%Z; [|discriminate]. cbn [negb].
    destruct (json r) as [[| | | | | |d]|msg]; try discriminate.
    cbn [py_get].
    destruct (dict_get d "status") as [s|]; [|discriminate].
    rewrite Hc.
    destruct Hres as [-> | (res & -> & Hnone)]; cbn [py_get dict_get].
    + reflexivity.
    + now rewrite Hnone.
  - now rewrite E'.
Qed.

(** The two errors of the submission step are never the same text. *)
Lemma msg_api_failed_not_msg_no_job_id (r : response) :
  msg_api_failed r <> msg_no_job_id.
Proof. unfold msg_api_failed, msg_no_job_id. cbn. discriminate. Qed.

(** A reply to the upload with a non-success status is reported with its
    status code and body. *)
Lemma transport_failure_reported (r : response) :
  supported language = true ->
  readable w audio_path = true ->
  post_reply w = NetReply r ->
  status_code r <> 200%Z ->
  fst (transcribe_audio w audio_path language access_token) = Ok (PStr (msg_api_failed r))
  /\ n_gets (snd (transcribe_audio w audio_path language access_token)) = 0.
Proof.
  unfold supported, readable, dict_in. intros Hl Hf Hr Hs.
  rewrite transcribe_audio_cases.
  destruct (dict_get language_codes language) as [lang_code|]; [|discriminate].
  destruct (fs w audio_path); try discriminate.
  rewrite upload_and_poll_cases, Hr. cbv zeta.
  apply Z.eqb_neq in Hs. rewrite Hs. now cbn.
Qed.

(** C6, as amended.  When the upload is answered with status 200 and a body
    that is a JSON object carrying no job identifier, the function returns the
    job-id-missing error without polling, and that error is never the text
    returned for a non-success transport status. *)
Theorem missing_job_id_is_reported (d : dict pyval) :
  supported language = true ->
  readable w audio_path = true ->
  reply_object (post_reply w) = Some d ->
  job_identifier (post_reply w) = None ->
  fst (transcribe_audio w audio_path language access_token) = Ok (PStr msg_no_job_id)
  /\ n_gets (snd (transcribe_audio w audio_path language access_token)) = 0
  /\ forall r, msg_api_failed r <> msg_no_job_id.
Proof.
  unfold supported, readable, dict_in. intros Hl Hf Hd Hj.
  split; [|split; [|apply msg_api_failed_not_msg_no_job_id]];
    rewrite transcribe_audio_cases;
    (destruct (dict_get language_codes language) as [lang_code|]; [|discriminate]);
    (destruct (fs w audio_path); try discriminate);
    rewrite upload_and_poll_cases; cbv zeta;
    unfold job_identifier in Hj; rewrite Hd in Hj; unfold reply_object in Hd;
    (destruct (post_reply w) as [msg|r]; [discriminate|]);
    (destruct (status_code r =? 200)%Z; [|discriminate]); cbn [negb];
    (destruct (json r) as [[| | | | | |d']|msg]; try discriminate);
    injection Hd as ->; cbn [py_get];
    (destruct (dict_get d "id") as [j|]; [destruct (truthy j); [discriminate|]|]);
    reflexivity.
Qed.

(** C7.  When the language is not a supported one, or the audio path names no
    file, the function returns a local error (the unsupported-language
    message, else the missing-file message) and makes no network request,
    neither the upload nor a status request. *)
Theorem local_errors_send_nothing :
  supported language = false \/ fs w audio_path = Missing ->
  fst (transcribe_audio w audio_path language access_token)
  = Ok (PStr (if supported language
              then msg_no_file audio_path
              else msg_unsupported language))
  /\ n_requests (snd (transcribe_audio w audio_path language access_token)) = 0.
Proof.
  unfold supported, dict_in. intros Hor.
  rewrite transcribe_audio_cases.
  destruct (dict_get language_codes language) as [lang_code|].
  - destruct Hor as [Hl|Hf]; [discriminate|]. rewrite Hf. now cbn.
  - now cbn.
Qed.

(** C1, as amended.  The language-code mapping gives English the code
    ["eng"]; a submission whose target language is English passes the
    language check: with a missing file it gets the missing-file error, and
    with a readable file the upload is sent with language code ["eng"]. *)
Theorem english_is_transcribed :
  dict_get language_codes "English" = Some "eng"
  /\ (fs w audio_path = Missing ->
      fst (transcribe_audio w audio_path "English" access_token)
      = Ok (PStr (msg_no_file audio_path)))
  /\ (fs w audio_path = Readable ->
      exists rest,
        snd (transcribe_audio w audio_path "English" access_token)
        = EvOpen audio_path
            :: uploading "English"
            :: upload audio_path access_token "eng"
            :: rest).
Proof.
  split; [reflexivity|]. split; intros Hf; rewrite transcribe_audio_cases, Hf.
  - reflexivity.
  - cbn [dict_get language_codes String.eqb Ascii.eqb Bool.eqb].
    rewrite upload_and_poll_cases. cbv zeta. cbn [app].
    destruct (post_reply w) as [msg|r]; [now eexists|].
    destruct (negb (status_code r =? 200)%Z); [now eexists|].
    destruct (json r) as [response_data|msg]; [|now eexists].
    destruct (py_get response_data "id" PNone) as [job_id|msg]; [|now eexists].
    destruct (negb (truthy job_id)); [now eexists|].
    destruct (poll_loop max_attempts _ _ w _) as [c log] eqn:E.
    apply poll_loop_extends in E as [tail ->].
    cbn [snd app]. now eexists.
Qed.

End Claims.

(** ** The theorems at work *)

(** C2 on the scenario of the specification: two polls report processing, the
    third the transcript ["hello"]. *)
Lemma completed_returns_transcription_witness :
  fst (@transcribe_audio plain w_hello "clip.mp3" "Luganda" "token")
  = Ok (PStr "hello").
Proof.
  apply (@completed_returns_transcription plain w_hello "clip.mp3" "Luganda" "token"
           2 (PStr "hello")).
  - reflexivity.
  - unfold max_attempts. lia.
  - intros [|[|i]] Hi; [reflexivity | reflexivity | lia].
  - reflexivity.
  - reflexivity.
Defined.

(** C3 on a job that never leaves processing. *)
Lemma polling_is_bounded_witness :
  fst (@transcribe_audio plain w_stuck "clip.mp3" "Luganda" "token")
  = Ok (PStr msg_timeout)
  /\ n_gets (snd (@transcribe_audio plain w_stuck "clip.mp3" "Luganda" "token"))
     = max_attempts.
Proof.
  apply (proj2 (@polling_is_bounded plain w_stuck "clip.mp3" "Luganda" "token")).
  - reflexivity.
  - intros i _. reflexivity.
Defined.

(** C4 on a second status request answered 503. *)
Lemma poll_failure_ends_polling_witness :
  fst (@transcribe_audio plain w_poll_503 "clip.mp3" "Luganda" "token")
  = Ok (PStr "Error checking job status: Service Unavailable")
  /\ n_gets (snd (@transcribe_audio plain w_poll_503 "clip.mp3" "Luganda" "token")) = 2.
Proof.
  apply (@poll_failure_ends_polling plain w_poll_503 "clip.mp3" "Luganda" "token"
           1 unavailable).
  - reflexivity.
  - unfold max_attempts. lia.
  - intros [|i] Hi; [reflexivity | lia].
  - reflexivity.
  - discriminate.
Defined.

(** C5, as amended, on a completed reply without [results]. *)
Lemma completed_without_transcription_witness :
  fst (@transcribe_audio plain w_no_results "clip.mp3" "Luganda" "token")
  = Ok (PStr "No transcription available").
Proof.
  apply (@completed_without_transcription plain w_no_results "clip.mp3" "Luganda"
           "token" 0).
  - reflexivity.
  - unfold max_attempts. lia.
  - intros i Hi. lia.
  - reflexivity.
  - left. reflexivity.
Defined.

(** C5 as stated fails: a completed reply whose [results] is [null] has no
    [results.transcription], and the function returns the text of the
    exception [results.get] raises, not the placeholder. *)
Lemma null_results_is_an_error :
  accepted w_null_results "clip.mp3" "Luganda" = true
  /\ completed (poll_reply w_null_results 0) = true
  /\ transcription_of (poll_reply w_null_results 0) = None
  /\ fst (@transcribe_audio plain w_null_results "clip.mp3" "Luganda" "token")
     = Ok (PStr "Error during transcription: 'NoneType' object has no attribute 'get'")
  /\ fst (@transcribe_audio plain w_null_results "clip.mp3" "Luganda" "token")
     <> Ok (PStr msg_no_transcription).
Proof. repeat split. discriminate. Qed.

(** C6, as amended, on a 200 reply whose object has no [id]. *)
Lemma missing_job_id_is_reported_witness :
  fst (@transcribe_audio plain w_no_id "clip.mp3" "Luganda" "token")
  = Ok (PStr "Error: Failed to get job ID from API response.")
  /\ n_gets (snd (@transcribe_audio plain w_no_id "clip.mp3" "Luganda" "token")) = 0
  /\ forall r, msg_api_failed r <> msg_no_job_id.
Proof.
  apply (@missing_job_id_is_reported plain w_no_id "clip.mp3" "Luganda" "token"
           [("message", PStr "accepted")]); reflexivity.
Defined.

(** C6 as stated fails: a 200 reply whose body is the JSON list [[]] carries no
    job identifier, and the function returns the text of the exception
    [response_data.get] raises, not the job-id-missing error. *)
Lemma list_body_is_another_error :
  supported "Luganda" = true
  /\ readable w_list_body "clip.mp3" = true
  /\ success_status (post_reply w_list_body) = true
  /\ job_identifier (post_reply w_list_body) = None
  /\ fst (@transcribe_audio plain w_list_body "clip.mp3" "Luganda" "token")
     = Ok (PStr "Error during transcription: 'list' object has no attribute 'get'")
  /\ fst (@transcribe_audio plain w_list_body "clip.mp3" "Luganda" "token")
     <> Ok (PStr msg_no_job_id).
Proof. repeat split. discriminate. Qed.

(** C7 on a path that names no file. *)
Lemma local_errors_send_nothing_witness :
  fst (@transcribe_audio plain w_no_file "clip.mp3" "Luganda" "token")
  = Ok (PStr "Error: File 'clip.mp3' does not exist.")
  /\ n_requests (snd (@transcribe_audio plain w_no_file "clip.mp3" "Luganda" "token"))
     = 0.
Proof.
  apply (@local_errors_send_nothing plain w_no_file "clip.mp3" "Luganda" "token").
  right. reflexivity.
Defined.

(** C1 as stated fails: the mapping has a code for English, and a submission
    for English is uploaded and transcribed. *)
Lemma english_is_not_rejected :
  dict_get language_codes "English" = Some "eng"
  /\ fst (@transcribe_audio plain w_hello "clip.mp3" "English" "token")
     = Ok (PStr "hello")
  /\ n_posts (snd (@transcribe_audio plain w_hello "clip.mp3" "English" "token")) = 1
  /\ fst (@transcribe_audio plain w_hello "clip.mp3" "English" "token")
     <> Ok (PStr (msg_unsupported "English")).
Proof. repeat split. discriminate. Qed.

(** C1, as amended, on the scenario of the specification. *)
Lemma english_is_transcribed_witness :
  exists rest,
    snd (@transcribe_audio plain w_hello "clip.mp3" "English" "token")
    = EvOpen "clip.mp3"
        :: uploading "English"
        :: @upload plain "clip.mp3" "token" "eng"
        :: rest.
Proof.
  apply (proj2 (proj2 (@english_is_transcribed plain w_hello "clip.mp3" "token"))).
  reflexivity.
Defined.

End TranscribeProps.

(* ================================================================== *)
(** * Properties of translate.py *)
(* ================================================================== *)

Module TranslateProps.
Import Py Translate TranslateSpec Scenarios.

(** ** Dicts *)

Lemma dict_get_In {V : Type} (d : dict V) (k : string) (v : V) :
  dict_get d k = Some v -> In (k, v) d.
Proof.
  induction d as [|[k' v'] d IH]; cbn; [discriminate|].
  destruct (String.eqb_spec k' k) as [->|Hne].
  - intros [= ->]. now left.
  - intros Hget. right. now apply IH.
Qed.

Lemma dict_get_key {V : Type} (d : dict V) (k : string) :
  In k (dict_keys d) -> exists v, dict_get d k = Some v.
Proof.
  induction d as [|[k' v'] d IH]; cbn; [contradiction|].
  destruct (String.eqb_spec k' k) as [->|Hne].
  - intros _. now eexists.
  - intros [Heq|Hin]; [contradiction|]. now apply IH.
Qed.

Lemma entries_phrases (t : table) (src tgt : string) :
  entries t src tgt = match phrases t src tgt with Some d => d | None => [] end.
Proof.
  unfold entries, row, phrases. now destruct (dict_get t src).
Qed.

Lemma has_pair_phrases (t : table) (src tgt : string) :
  has_pair t src tgt = match phrases t src tgt with Some _ => true | None => false end.
Proof.
  unfold has_pair, dict_in, row, phrases.
  destruct (dict_get t src) as [r|]; [|reflexivity].
  now destruct (dict_get r tgt).
Qed.

Lemma entries_all_entries (t : table) (src tgt phrase translation : string) :
  dict_get (entries t src tgt) phrase = Some translation ->
  In (src, tgt, phrase, translation) (all_entries t).
Proof.
  unfold entries, row, all_entries. intros Hget.
  destruct (dict_get t src) as [r|] eqn:Er; [|discriminate].
  destruct (dict_get r tgt) as [d|] eqn:Ed; [|discriminate].
  apply in_flat_map. exists (src, r). split; [now apply dict_get_In|].
  apply in_flat_map. exists (tgt, d). split; [now apply dict_get_In|].
  apply in_map_iff. exists (phrase, translation). split; [reflexivity|].
  now apply dict_get_In.
Qed.

(** ** The table after startup *)

Lemma startup_succeeds : translations = Ok derived.
Proof. vm_compute. reflexivity. Qed.

Lemma all_reversed `{Builtins} :
  forallb (reverse_found derived) (all_entries authored) = true.
Proof. vm_compute. reflexivity. Qed.

Lemma all_english_side : forallb english_side derived = true.
Proof. vm_compute. reflexivity. Qed.

(** A table whose rows all have English on one side has no pair without
    English. *)
Lemma has_pair_needs_english (t : table) (src tgt : string) :
  forallb english_side t = true ->
  src <> "English" -> tgt <> "English" -> has_pair t src tgt = false.
Proof.
  intros Hall Hs Ht. rewrite has_pair_phrases. unfold phrases.
  destruct (dict_get t src) as [r|] eqn:Er; [|reflexivity].
  apply dict_get_In in Er.
  pose proof (proj1 (forallb_forall english_side t) Hall _ Er) as Hside.
  cbn [english_side] in Hside.
  apply orb_true_iff in Hside as [Heq|Hkeys].
  - apply String.eqb_eq in Heq. exact (False_ind _ (Hs Heq)).
  - clear Er. destruct r as [|[k d] [|? ?]]; cbn [dict_keys map fst] in Hkeys;
      try discriminate Hkeys.
    apply String.eqb_eq in Hkeys. subst k. cbn [dict_get].
    destruct (String.eqb_spec "English" tgt) as [Heq|_];
      [exact (False_ind _ (Ht (eq_sym Heq))) | reflexivity].
Qed.

Section Lookup.
Context `{Builtins}.

(** ** The scan for a case-insensitive match *)

Lemma scan_skips (d : dict string) (text : string) (pre rest : list string) :
  (forall p, In p pre -> str_lower p <> str_lower text) ->
  scan d (pre ++ rest) text = scan d rest text.
Proof.
  induction pre as [|p pre IH]; intros Hno; [reflexivity|].
  cbn [app scan].
  destruct (String.eqb_spec (str_lower p) (str_lower text)) as [Heq|_].
  - exfalso. apply (Hno p); [now left | exact Heq].
  - apply IH. intros q Hq. apply Hno. now right.
Qed.

Lemma scan_no_match (d : dict string) (text : string) (keys : list string) :
  (forall p, In p keys -> str_lower p <> str_lower text) ->
  scan d keys text = Ok None.
Proof.
  intros Hno. rewrite <- (app_nil_r keys). now rewrite scan_skips.
Qed.

Lemma reverse_found_lookup (t : table) (src tgt phrase translation : string) :
  reverse_found t (src, tgt, phrase, translation) = true ->
  lookup t tgt src translation = Ok (Translated phrase).
Proof.
  cbn [reverse_found].
  destruct (lookup t tgt src translation) as [[p|]|msg]; try discriminate.
  intros Heq. apply String.eqb_eq in Heq. now subst p.
Qed.

(** C8.  Startup succeeds, and for every entry [(src, tgt, phrase)] with
    translation [translation] of the authored table, looking [translation] up
    under the pair [(tgt, src)] in the table startup derives returns
    [phrase]. *)
Theorem reverse_lookup_returns_phrase :
  exists t,
    translations = Ok t
    /\ forall src tgt phrase translation,
         dict_get (entries authored src tgt) phrase = Some translation ->
         lookup t tgt src translation = Ok (Translated phrase).
Proof.
  exists derived. split; [apply startup_succeeds|].
  intros src tgt phrase translation Hget.
  apply reverse_found_lookup.
  apply (proj1 (forallb_forall (reverse_found derived) (all_entries authored))
           all_reversed).
  apply entries_all_entries. exact Hget.
Qed.

(** C9.  In any table and for any source language, target language and text:
    a verbatim match is answered with its translation; without a verbatim
    match, the first phrase (in the table's order) that equals the text up to
    case is answered with its translation; and when neither exists the answer
    is that the translation is not available. *)
Theorem lookup_exact_then_caseless (t : table) (src tgt text : string) :
  (forall d tr,
     phrases t src tgt = Some d ->
     dict_get d text = Some tr ->
     lookup t src tgt text = Ok (Translated tr))
  /\ (forall d pre phrase post,
        phrases t src tgt = Some d ->
        dict_get d text = None ->
        dict_keys d = (pre ++ phrase :: post)%list ->
        (forall p, In p pre -> str_lower p <> str_lower text) ->
        str_lower phrase = str_lower text ->
        exists tr,
          dict_get d phrase = Some tr
          /\ lookup t src tgt text = Ok (Translated tr))
  /\ ((forall d,
         phrases t src tgt = Some d ->
         dict_get d text = None
         /\ forall p, In p (dict_keys d) -> str_lower p <> str_lower text) ->
      lookup t src tgt text = Ok NotAvailable).
Proof.
  unfold lookup. rewrite has_pair_phrases, entries_phrases.
  repeat split.
  - intros d tr -> Hget. unfold dict_in, subscript. now rewrite Hget.
  - intros d pre phrase post -> Hnone Hkeys Hpre Hmatch.
    destruct (dict_get_key d phrase) as [tr Htr].
    { rewrite Hkeys. apply in_or_app. right. now left. }
    exists tr. split; [exact Htr|].
    unfold dict_in. rewrite Hnone. cbn [andb].
    rewrite Hkeys, scan_skips by exact Hpre.
    cbn [scan]. rewrite Hmatch, String.eqb_refl.
    unfold subscript. now rewrite Htr.
  - intros Hnone.
    destruct (phrases t src tgt) as [d|]; [|reflexivity].
    destruct (Hnone d eq_refl) as [Hget Hkeys].
    unfold dict_in. rewrite Hget. cbn [andb].
    now rewrite scan_no_match.
Qed.

(** C10.  Startup succeeds, and in the table it derives the lookup between
    two distinct languages that are both not English answers, for every text,
    that the translation is not available. *)
Theorem no_pair_without_english :
  exists t,
    translations = Ok t
    /\ forall src tgt text,
         In src languages -> In tgt languages ->
         src <> "English" -> tgt <> "English" -> src <> tgt ->
         lookup t src tgt text = Ok NotAvailable.
Proof.
  exists derived. split; [apply startup_succeeds|].
  intros src tgt text _ _ Hs Ht _.
  unfold lookup.
  rewrite (has_pair_needs_english derived src tgt all_english_side Hs Ht).
  reflexivity.
Qed.

End Lookup.

(** ** The theorems at work *)

(** C8 on the entry English, Luganda, ["Thank you"]. *)
Lemma reverse_lookup_returns_phrase_witness :
  exists t,
    translations = Ok t
    /\ @lookup plain t "Luganda" "English" "Weebale" = Ok (Translated "Thank you").
Proof.
  destruct (@reverse_lookup_returns_phrase plain) as (t & Et & Hall).
  exists t. split; [exact Et|].
  apply Hall. reflexivity.
Defined.

(** C9 on the Luganda to English phrases: a verbatim match, a match up to
    case, and no match. *)
Lemma lookup_exact_then_caseless_witness :
  @lookup plain derived "Luganda" "English" "Weebale" = Ok (Translated "Thank you")
  /\ (exists tr,
        dict_get (entries derived "Luganda" "English") "Weebale" = Some tr
        /\ @lookup plain derived "Luganda" "English" "WEEBALE" = Ok (Translated tr))
  /\ @lookup plain derived "Luganda" "English" "Webale" = Ok NotAvailable.
Proof.
  split; [|split].
  - apply (proj1 (@lookup_exact_then_caseless plain derived "Luganda" "English"
                    "Weebale") (entries derived "Luganda" "English"));
      vm_compute; reflexivity.
  - apply (proj1 (proj2 (@lookup_exact_then_caseless plain derived "Luganda" "English"
                           "WEEBALE"))
             (entries derived "Luganda" "English")
             ["Oli otya"; "Oli otya?"; "Wasuze otya"] "Weebale"
             ["Weraba"; "Amanya go gwe ani?"; "Amanya gange"; "Nkwagala";
              "Ndi bulungi"; "Tukusanyukidde"]).
    + vm_compute; reflexivity.
    + vm_compute; reflexivity.
    + vm_compute; reflexivity.
    + intros p Hin.
      repeat (destruct Hin as [<-|Hin]; [vm_compute; discriminate|]).
      destruct Hin.
    + vm_compute; reflexivity.
  - apply (proj2 (proj2 (@lookup_exact_then_caseless plain derived "Luganda" "English"
                           "Webale"))).
    intros d Hd. vm_compute in Hd. injection Hd as <-.
    split; [reflexivity|].
    intros p Hin.
    repeat (destruct Hin as [<-|Hin]; [vm_compute; discriminate|]).
    destruct Hin.
Defined.

(** C10 on Luganda to Acholi. *)
Lemma no_pair_without_english_witness :
  exists t,
    translations = Ok t
    /\ @lookup plain t "Luganda" "Acholi" "Oli otya" = Ok NotAvailable.
Proof.
  destruct (@no_pair_without_english plain) as (t & Et & Hall).
  exists t. split; [exact Et|].
  apply Hall.
  - right. left. reflexivity.
  - do 5 right. left. reflexivity.
  - discriminate.
  - discriminate.
  - discriminate.
Defined.

End TranslateProps.

(* ================================================================== *)
(** * The log of a call of transcribe_audio *)
(* ================================================================== *)

Module TranscribeTraceProps.
Import Py Transcribe TranscribeSpec TranscribeTrace Scenarios MoreScenarios.
Import TranscribeProps.

(** ** Runs of turns *)

Lemma turns_app (url : string) (headers : dict string) (a b : list event) :
  turns url headers a -> turns url headers b -> turns url headers (a ++ b).
Proof.
  induction 1 as [|rest _ IH|line rest _ IH]; intros Hb; cbn [app].
  - exact Hb.
  - apply turns_quiet. now apply IH.
  - apply turns_print. now apply IH.
Qed.

Lemma turns_slept (url : string) (headers : dict string) (tail : list event) :
  turns url headers tail -> slept tail = (5 * Z.of_nat (n_gets tail))%Z.
Proof.
  induction 1 as [|rest _ IH|line rest _ IH].
  - reflexivity.
  - change (n_gets (EvSleep 5 :: EvGet url headers :: rest)) with (S (n_gets rest)).
    cbn [slept]. lia.
  - change (n_gets (EvSleep 5 :: EvGet url headers :: EvPrint line :: rest))
      with (S (n_gets rest)).
    cbn [slept]. lia.
Qed.

Lemma turns_no_post (url : string) (headers : dict string) (tail : list event) :
  turns url headers tail -> n_posts tail = 0.
Proof. unfold n_posts. induction 1; cbn; trivial. Qed.

Lemma turns_no_handle (url : string) (headers : dict string) (tail : list event) :
  turns url headers tail -> forallb (fun e => negb (is_handle e)) tail = true.
Proof. induction 1; cbn; trivial. Qed.

Lemma turns_events (url : string) (headers : dict string) (tail : list event) :
  turns url headers tail ->
  forall e, In e tail ->
    e = EvSleep 5 \/ e = EvGet url headers \/ exists line, e = EvPrint line.
Proof.
  induction 1 as [|rest _ IH|line rest _ IH]; intros e Hin.
  - destruct Hin.
  - destruct Hin as [<-|[<-|Hin]]; [now left | now right; left | now apply IH].
  - destruct Hin as [<-|[<-|[<-|Hin]]];
      [now left | now right; left | right; right; now exists line | now apply IH].
Qed.

Lemma slept_app (l1 l2 : list event) : slept (l1 ++ l2) = (slept l1 + slept l2)%Z.
Proof.
  induction l1 as [|e l1 IH]; [reflexivity|].
  destruct e; cbn [app slept]; lia.
Qed.

Lemma n_posts_prefix (pre post : list event) : n_posts pre <= n_posts (pre ++ post).
Proof. rewrite n_posts_app. lia. Qed.

Lemma n_gets_In (log : list event) (e : event) :
  In e log -> is_get e = true -> 0 < n_gets log.
Proof.
  intros Hin Hget. apply in_split in Hin as (l1 & l2 & ->).
  rewrite n_gets_app. unfold n_gets at 2. cbn [filter]. rewrite Hget. cbn. lia.
Qed.

Section Polling.
Context `{Builtins}.
Variable w : world.
Variables (url : string) (headers : dict string).

Lemma poll_once_turns log c log' :
  poll_once url headers w log = (c, log') ->
  exists tail, log' = (log ++ tail)%list /\ turns url headers tail /\ n_gets tail = 1.
Proof.
  intros E. apply poll_once_turn in E as [-> | line ->]; eexists; split;
    try reflexivity; split; try reflexivity.
  - apply turns_quiet, turns_done.
  - apply turns_print, turns_done.
Qed.

(** What the loop adds to the log is a run of at most [remaining] turns. *)
Lemma poll_loop_turns remaining : forall log c log',
  poll_loop remaining url headers w log = (c, log') ->
  exists tail,
    log' = (log ++ tail)%list /\ turns url headers tail /\ n_gets tail <= remaining.
Proof.
  induction remaining as [|remaining IH]; intros log c log' E.
  - inversion E; subst. exists []. rewrite app_nil_r.
    repeat split; [apply turns_done | cbn; lia].
  - cbn [poll_loop] in E. unfold bind in E.
    destruct (poll_once url headers w log) as [c1 log1] eqn:E1.
    apply poll_once_turns in E1 as (tail1 & -> & T1 & G1).
    destruct c1 as [[]|v|msg].
    + apply IH in E as (tail & -> & T & G).
      exists (tail1 ++ tail)%list. rewrite app_assoc. repeat split.
      * now apply turns_app.
      * rewrite n_gets_app. lia.
    + inversion E; subst. exists tail1. repeat split; [assumption | lia].
    + inversion E; subst. exists tail1. repeat split; [assumption | lia].
Qed.

(** A turn that does not fall through ends the loop there. *)
Lemma poll_loop_ends n k (c : completion unit) : forall log,
  k < n ->
  (forall i, i < k -> non_terminal (poll_reply w (n_gets log + i)) = true) ->
  (forall log1, n_gets log1 = n_gets log + k ->
     fst (poll_once url headers w log1) = c) ->
  c <> Normal tt ->
  exists log',
    poll_loop n url headers w log = (c, log') /\ n_gets log' = n_gets log + S k.
Proof.
  intros log Hk Hp Hc Hend.
  replace n with (k + S (n - S k)) by lia.
  destruct (poll_loop_pending w url headers k (S (n - S k)) log Hp)
    as (log1 & E & Hg & _).
  rewrite E. cbn [poll_loop]. unfold bind.
  specialize (Hc log1 Hg).
  destruct (poll_once url headers w log1) as [c1 log2] eqn:E1.
  cbn [fst] in Hc. subst c1.
  apply poll_once_turn, turn_of_counts in E1 as [Hg2 _].
  exists log2. split; [|lia].
  destruct c as [[]|v|msg]; [now elim Hend | reflexivity | reflexivity].
Qed.

(** A turn returns text, unless it returns the transcription of a reply that
    reports completion. *)
Lemma poll_once_returns log v log' :
  poll_once url headers w log = (Returns v, log') ->
  is_str v = true
  \/ (completed (poll_reply w (n_gets log)) = true
      /\ transcription_of (poll_reply w (n_gets log)) = Some v).
Proof.
  rewrite poll_once_cases. cbv zeta.
  unfold completed, transcription_of, results_of, poll_status, reply_object.
  destruct (poll_reply w (n_gets log)) as [msg|r]; [discriminate|].
  destruct (status_code r =? 200)%Z; cbn [negb];
    [|intros [= <- _]; now left].
  destruct (json r) as [[| | | | | |d]|msg]; cbn [py_get]; try discriminate.
  destruct (dict_get d "status") as [s|]; [|discriminate].
  destruct (eq_str s "completed").
  - destruct (dict_get d "results") as [[| | | | | |res]|]; cbn [py_get dict_get];
      try discriminate.
    + destruct (dict_get res "transcription") as [t|]; intros [= <- _];
        [now right | now left].
    + intros [= <- _]. now left.
  - destruct (eq_str s "failed"); [|discriminate].
    unfold msg_failed. cbn [py_get]. intros [= <- _]. now left.
Qed.

Lemma poll_loop_returns remaining : forall log v log',
  poll_loop remaining url headers w log = (Returns v, log') ->
  is_str v = true
  \/ exists k,
       n_gets log <= k < n_gets log + remaining
       /\ completed (poll_reply w k) = true
       /\ transcription_of (poll_reply w k) = Some v.
Proof.
  induction remaining as [|remaining IH]; intros log v log' E; [discriminate|].
  cbn [poll_loop] in E. unfold bind in E.
  destruct (poll_once url headers w log) as [c1 log1] eqn:E1.
  destruct c1 as [[]|v1|msg]; [|injection E as <- _|discriminate].
  - apply poll_once_turn, turn_of_counts in E1 as [Hg _].
    apply IH in E as [Hs | (k & Hk & Hc & Ht)]; [now left|].
    right. exists k. repeat split; try assumption; lia.
  - apply poll_once_returns in E1 as [Hs | [Hc Ht]]; [now left|].
    right. exists (n_gets log). repeat split; try assumption; lia.
Qed.

End Polling.

Section Calls.
Context `{Builtins}.
Variable w : world.
Variables audio_path language access_token : string.

(** The shape of every log: nothing (a local error), or the file opened, the
    upload, and the file closed, with between the last two, once a job
    identifier has come back, the two lines about it and a run of at most
    [max_attempts] turns of the loop. *)
Lemma log_shape :
  snd (transcribe_audio w audio_path language access_token) = []
  \/ exists lang_code,
       dict_get language_codes language = Some lang_code
       /\ fs w audio_path = Readable
       /\ (snd (transcribe_audio w audio_path language access_token)
           = [ EvOpen audio_path; uploading language;
               upload audio_path access_token lang_code; EvClose audio_path ]
           \/ exists job_id polls,
                job_identifier (post_reply w) = Some job_id
                /\ turns (job_url job_id) (bearer access_token) polls
                /\ n_gets polls <= max_attempts
                /\ snd (transcribe_audio w audio_path language access_token)
                   = (before_polling audio_path language access_token lang_code job_id
                        ++ polls ++ [EvClose audio_path])%list).
Proof.
  rewrite transcribe_audio_cases.
  destruct (dict_get language_codes language) as [lang_code|]; [|now left].
  destruct (fs w audio_path) eqn:Ef; try now left.
  right. exists lang_code. split; [reflexivity|]. split; [reflexivity|].
  rewrite upload_and_poll_cases. cbv zeta.
  unfold job_identifier, reply_object.
  destruct (post_reply w) as [msg|r]; [now left|].
  destruct (status_code r =? 200)%Z; cbn [negb]; [|now left].
  destruct (json r) as [response_data|msg]; [|now left].
  destruct response_data as [| | | | | |d]; cbn [py_get]; try now left.
  destruct (dict_get d "id") as [j|]; [|now left].
  destruct (truthy j) eqn:Et; cbn [negb]; [|now left].
  right.
  destruct (poll_loop max_attempts (job_url j) (bearer access_token) w _)
    as [c log] eqn:E.
  apply poll_loop_turns in E as (polls & -> & T & G).
  exists j, polls. split; [reflexivity|]. split; [exact T|]. split; [exact G|].
  destruct c as [[]|v|msg]; cbn [snd]; rewrite <- !app_assoc; reflexivity.
Qed.

(** An accepted submission whose turn [k] does not fall through returns what
    that turn yields, after [k + 1] status requests. *)
Lemma run_ends_at (k : nat) (c : completion unit) :
  accepted w audio_path language = true ->
  k < max_attempts ->
  pending_until w k ->
  (forall job_id log1, n_gets log1 = k ->
     fst (poll_once (job_url job_id) (bearer access_token) w log1) = c) ->
  c <> Normal tt ->
  fst (transcribe_audio w audio_path language access_token) = Ok (after_polling c)
  /\ n_gets (snd (transcribe_audio w audio_path language access_token)) = S k.
Proof.
  intros Ha Hk Hp Hc Hend.
  destruct (accepted_run w audio_path language access_token Ha)
    as (lang_code & job_id & _ & _ & E).
  rewrite E.
  destruct (poll_loop_ends w (job_url job_id) (bearer access_token) max_attempts k c
              (before_polling audio_path language access_token lang_code job_id) Hk)
    as (log' & E' & Hg).
  - now apply pending_from_start.
  - intros log1 Hg. apply Hc. now rewrite Hg, n_gets_before_polling.
  - exact Hend.
  - rewrite E'. cbn [fst snd]. split; [reflexivity|].
    rewrite n_gets_app, Hg, n_gets_before_polling.
    change (n_gets [EvClose audio_path]) with 0. lia.
Qed.

(** X1.  When the submission is accepted, the first [k] status replies
    ([k] fewer than 30) carry a non-terminal status and the next one reports
    status ["failed"], the function returns the failure message with the reason
    the reply states under [error], or ["Unknown error"] when it states none,
    and asks for the status no more. *)
Theorem failed_job_is_reported (k : nat) (d : dict pyval) :
  accepted w audio_path language = true ->
  k < max_attempts ->
  pending_until w k ->
  failed (poll_reply w k) = true ->
  reply_object (poll_reply w k) = Some d ->
  fst (transcribe_audio w audio_path language access_token)
  = Ok (PStr (msg_job_failed (failure_reason d)))
  /\ n_gets (snd (transcribe_audio w audio_path language access_token)) = S k.
Proof.
  intros Ha Hk Hp Hf Hd.
  apply (run_ends_at k (Returns (PStr (msg_job_failed (failure_reason d)))));
    try assumption; [|discriminate].
  intros job_id log1 Hg. rewrite poll_once_cases, Hg. cbv zeta.
  unfold failed, poll_status in Hf. rewrite Hd in Hf. unfold reply_object in Hd.
  destruct (poll_reply w k) as [msg|r]; [discriminate|].
  destruct (status_code r =? 200)%Z; [|discriminate]. cbn [negb].
  destruct (json r) as [[| | | | | |d']|msg]; try discriminate.
  injection Hd as ->. cbn [py_get].
  apply andb_true_iff in Hf as [Hc Hf]. apply negb_true_iff in Hc.
  rewrite Hc, Hf. unfold msg_failed. cbn [py_get]. reflexivity.
Qed.

(** X2.  When a status request raises, or its 200 reply has a body that is
    not JSON or not a JSON object, or reports completion with a [results] that
    is not an object, the function returns ["Error during transcription: "]
    followed by the text of the exception, and that request is the last. *)
Theorem poll_exception_is_reported (k : nat) (msg : string) :
  accepted w audio_path language = true ->
  k < max_attempts ->
  pending_until w k ->
  poll_raises (poll_reply w k) = Some msg ->
  fst (transcribe_audio w audio_path language access_token)
  = Ok (PStr (msg_exception msg))
  /\ n_gets (snd (transcribe_audio w audio_path language access_token)) = S k.
Proof.
  intros Ha Hk Hp Hr.
  apply (run_ends_at k (Throws msg)); try assumption; [|discriminate].
  intros job_id log1 Hg. rewrite poll_once_cases, Hg. cbv zeta.
  unfold poll_raises, completed, poll_status, reply_object in Hr.
  destruct (poll_reply w k) as [msg'|r]; [now injection Hr as ->|].
  destruct (status_code r =? 200)%Z; [|discriminate]. cbn [negb].
  destruct (json r) as [v|msg']; [|now injection Hr as ->].
  destruct v as [| | | | | |d]; cbn [py_get];
    try (injection Hr as <-; reflexivity).
  destruct (dict_get d "status") as [s|].
  - destruct (eq_str s "completed"); [|discriminate].
    destruct (dict_get d "results") as [[| | | | | |res]|]; cbn [py_get];
      try discriminate; injection Hr as <-; reflexivity.
  - discriminate.
Qed.

(** X3.  When [requests.post] raises, the function returns
    ["Error during transcription: "] followed by the text of the exception; the
    upload was attempted once and no status request is made. *)
Theorem upload_exception_is_reported (msg : string) :
  supported language = true ->
  readable w audio_path = true ->
  post_reply w = NetRaise msg ->
  fst (transcribe_audio w audio_path language access_token)
  = Ok (PStr (msg_exception msg))
  /\ n_posts (snd (transcribe_audio w audio_path language access_token)) = 1
  /\ n_gets (snd (transcribe_audio w audio_path language access_token)) = 0.
Proof.
  unfold supported, readable, dict_in. intros Hl Hf Hr.
  rewrite transcribe_audio_cases.
  destruct (dict_get language_codes language) as [lang_code|]; [|discriminate].
  destruct (fs w audio_path); try discriminate.
  rewrite upload_and_poll_cases, Hr. cbv zeta. now cbn.
Qed.

(** X4.  When the upload is answered with a transport status other than 200,
    the function returns the message that holds the status code and the body
    of the reply, and makes no status request. *)
Theorem upload_failure_is_reported (r : response) :
  supported language = true ->
  readable w audio_path = true ->
  post_reply w = NetReply r ->
  status_code r <> 200%Z ->
  fst (transcribe_audio w audio_path language access_token)
  = Ok (PStr ("Error: API request failed with status code "
                ++ str_of_int (status_code r) ++ ": " ++ text r))
  /\ n_gets (snd (transcribe_audio w audio_path language access_token)) = 0.
Proof. apply transport_failure_reported. Qed.

(** X5.  When the path names something [open] refuses, the function returns
    ["Error during transcription: "] followed by the text of the error and does
    nothing else: no upload, no status request. *)
Theorem unopenable_file_is_reported (err : string) :
  supported language = true ->
  fs w audio_path = Unopenable err ->
  transcribe_audio w audio_path language access_token
  = (Ok (PStr (msg_exception err)), []).
Proof.
  unfold supported, dict_in. intros Hl Hf.
  rewrite transcribe_audio_cases, Hf.
  now destruct (dict_get language_codes language).
Qed.

(** X6.  Whatever the world does, the function either touches nothing or
    opens the audio file first, closes it last, and opens or closes nothing in
    between; it opens the file only when it is readable. *)
Theorem file_handle_is_released :
  snd (transcribe_audio w audio_path language access_token) = []
  \/ (fs w audio_path = Readable
      /\ exists mid,
           snd (transcribe_audio w audio_path language access_token)
           = (EvOpen audio_path :: mid ++ [EvClose audio_path])%list
           /\ forallb (fun e => negb (is_handle e)) mid = true).
Proof.
  destruct log_shape as [E | (lang_code & _ & Hf & [E | (j & polls & _ & T & _ & E)])];
    [now left | right; split; [exact Hf|] ..]; rewrite E.
  - exists [uploading language; upload audio_path access_token lang_code].
    split; reflexivity.
  - exists ([uploading language; upload audio_path access_token lang_code]
              ++ submitted_lines j ++ polls)%list.
    split; [reflexivity|].
    rewrite !forallb_app. rewrite (turns_no_handle _ _ _ T). reflexivity.
Qed.

(** X7.  Whatever the world does, the function uploads at most once; it
    asks for the status only after a submission that was accepted; and the
    upload comes before every status request. *)
Theorem polls_follow_an_accepted_upload :
  n_posts (snd (transcribe_audio w audio_path language access_token)) <= 1
  /\ (0 < n_gets (snd (transcribe_audio w audio_path language access_token)) ->
      accepted w audio_path language = true)
  /\ (forall pre e post,
        snd (transcribe_audio w audio_path language access_token)
        = (pre ++ e :: post)%list ->
        is_get e = true ->
        n_posts pre = 1).
Proof.
  destruct log_shape as [E | (lang_code & Hl & Hf & [E | (j & polls & Hj & T & _ & E)])];
    rewrite E.
  - split; [cbn; lia|]. split; [cbn; lia|].
    intros pre e post Hsplit. now destruct pre.
  - split; [cbn; lia|]. split; [cbn; lia|].
    intros pre e post Hsplit Hget. exfalso.
    assert (Hin : In e [EvOpen audio_path; uploading language;
                        upload audio_path access_token lang_code;
                        EvClose audio_path]).
    { rewrite Hsplit. apply in_or_app. right. now left. }
    apply (n_gets_In _ _ Hin) in Hget. cbn in Hget. lia.
  - pose proof (turns_no_post _ _ _ T) as Hnp.
    split; [|split].
    + rewrite !n_posts_app, Hnp, n_posts_before_polling. cbn. lia.
    + intros _. unfold accepted, supported, readable, dict_in.
      now rewrite Hl, Hf, Hj.
    + intros pre e post Hsplit Hget.
      apply app_eq_app in Hsplit as [l [[Hbp Htail] | [Hpre Htail]]].
      * destruct l as [|e' l'].
        -- rewrite app_nil_r in Hbp. rewrite <- Hbp. apply n_posts_before_polling.
        -- exfalso. injection Htail as <- _.
           assert (Hin : In e (before_polling audio_path language access_token
                                 lang_code j)).
           { rewrite Hbp. apply in_or_app. right. now left. }
           apply (n_gets_In _ _ Hin) in Hget.
           rewrite n_gets_before_polling in Hget. lia.
      * assert (Hl0 : n_posts l = 0).
        { pose proof (n_posts_prefix l (e :: post)) as Hle.
          rewrite <- Htail, n_posts_app, Hnp in Hle. cbn in Hle. lia. }
        rewrite Hpre, n_posts_app, n_posts_before_polling, Hl0. reflexivity.
Qed.

(** X8.  Whatever the world does, the function sleeps 5 seconds for each
    status request it makes and nowhere else, so at most 150 seconds in all. *)
Theorem polling_sleeps_are_bounded :
  slept (snd (transcribe_audio w audio_path language access_token))
  = (5 * Z.of_nat (n_gets (snd (transcribe_audio w audio_path language access_token))))%Z
  /\ (slept (snd (transcribe_audio w audio_path language access_token)) <= 150)%Z.
Proof.
  destruct log_shape as [E | (lang_code & _ & _ & [E | (j & polls & _ & T & G & E)])];
    rewrite E; try (cbn; lia).
  rewrite !slept_app, !n_gets_app, (turns_slept _ _ _ T), n_gets_before_polling.
  change (slept (before_polling audio_path language access_token lang_code j))
    with 0%Z.
  change (slept [EvClose audio_path]) with 0%Z.
  change (n_gets [EvClose audio_path]) with 0.
  unfold max_attempts in G. lia.
Qed.

(** X9.  Every request of a call is either the upload to the transcription
    endpoint, with the bearer token and the code of the language, or a status
    request to the address of the job the service named, with the same bearer
    token. *)
Theorem requests_carry_the_token (e : event) :
  In e (snd (transcribe_audio w audio_path language access_token)) ->
  (is_post e = true ->
   exists lang_code,
     dict_get language_codes language = Some lang_code
     /\ e = upload audio_path access_token lang_code)
  /\ (is_get e = true ->
      exists job_id,
        job_identifier (post_reply w) = Some job_id
        /\ e = EvGet (job_url job_id) (bearer access_token)).
Proof.
  destruct log_shape as [E | (lang_code & Hl & _ & [E | (j & polls & Hj & T & _ & E)])];
    rewrite E; intros Hin.
  - destruct Hin.
  - cbn [In] in Hin.
    destruct Hin as [<-|[<-|[<-|[<-|[]]]]]; split; try discriminate.
    intros _. now exists lang_code.
  - apply in_app_or in Hin as [Hin|Hin];
      [|apply in_app_or in Hin as [Hin|Hin]].
    + cbn [In before_polling] in Hin.
      destruct Hin as [<-|[<-|[<-|[<-|[<-|[]]]]]]; split; try discriminate.
      intros _. now exists lang_code.
    + destruct (turns_events _ _ _ T e Hin) as [-> | [-> | [line ->]]];
        split; try discriminate.
      intros _. now exists j.
    + destruct Hin as [<-|[]]. split; discriminate.
Qed.

(** X10.  The function always returns, never raises; and what it returns
    is text, unless it is the value a reply reporting completion holds under
    [results.transcription], which it passes on whatever its type. *)
Theorem returns_text_or_the_transcription :
  exists v,
    fst (transcribe_audio w audio_path language access_token) = Ok v
    /\ (is_str v = true
        \/ exists k,
             k < max_attempts
             /\ completed (poll_reply w k) = true
             /\ transcription_of (poll_reply w k) = Some v).
Proof.
  rewrite transcribe_audio_cases.
  destruct (dict_get language_codes language) as [lang_code|];
    [|eexists; split; [reflexivity | now left]].
  destruct (fs w audio_path); try (eexists; split; [reflexivity | now left]).
  rewrite upload_and_poll_cases. cbv zeta.
  destruct (post_reply w) as [msg|r]; [eexists; split; [reflexivity | now left]|].
  destruct (negb (status_code r =? 200)%Z);
    [eexists; split; [reflexivity | now left]|].
  destruct (json r) as [response_data|msg];
    [|eexists; split; [reflexivity | now left]].
  destruct (py_get response_data "id" PNone) as [job_id|msg];
    [|eexists; split; [reflexivity | now left]].
  destruct (negb (truthy job_id)); [eexists; split; [reflexivity | now left]|].
  destruct (poll_loop max_attempts (job_url job_id) (bearer access_token) w _)
    as [c log] eqn:E.
  destruct c as [[]|v|msg]; try (eexists; split; [reflexivity | now left]).
  exists v. split; [reflexivity|].
  apply poll_loop_returns in E as [Hs | (k & Hk & Hc & Ht)]; [now left|].
  right. exists k. repeat split; try assumption.
  cbn in Hk. lia.
Qed.

End Calls.





(** ** The theorems at work *)

(** X1 on a job that fails at the first status request. *)
Lemma failed_job_is_reported_witness :
  fst (@transcribe_audio plain w_failed "clip.mp3" "Luganda" "token")
  = Ok (PStr "Error: Transcription job failed. Reason: audio is silent")
  /\ n_gets (snd (@transcribe_audio plain w_failed "clip.mp3" "Luganda" "token")) = 1.
Proof.
  apply (@failed_job_is_reported plain w_failed "clip.mp3" "Luganda" "token" 0
           [("status", PStr "failed"); ("error", PStr "audio is silent")]).
  - reflexivity.
  - unfold max_attempts. lia.
  - intros i Hi. lia.
  - reflexivity.
  - reflexivity.
Defined.

(** X2 on a completed reply whose [results] is [null]. *)
Lemma poll_exception_is_reported_witness :
  fst (@transcribe_audio plain w_null_results "clip.mp3" "Luganda" "token")
  = Ok (PStr "Error during transcription: 'NoneType' object has no attribute 'get'")
  /\ n_gets (snd (@transcribe_audio plain w_null_results "clip.mp3" "Luganda" "token"))
     = 1.
Proof.
  apply (@poll_exception_is_reported plain w_null_results "clip.mp3" "Luganda" "token"
           0 "'NoneType' object has no attribute 'get'").
  - reflexivity.
  - unfold max_attempts. lia.
  - intros i Hi. lia.
  - reflexivity.
Defined.

(** X3 on an upload that cannot be sent. *)
Lemma upload_exception_is_reported_witness :
  fst (@transcribe_audio plain w_post_down "clip.mp3" "Luganda" "token")
  = Ok (PStr "Error during transcription: Connection refused")
  /\ n_posts (snd (@transcribe_audio plain w_post_down "clip.mp3" "Luganda" "token")) = 1
  /\ n_gets (snd (@transcribe_audio plain w_post_down "clip.mp3" "Luganda" "token")) = 0.
Proof.
  apply (@upload_exception_is_reported plain w_post_down "clip.mp3" "Luganda" "token"
           "Connection refused"); reflexivity.
Defined.

(** X5 on a file that cannot be opened. *)
Lemma unopenable_file_is_reported_witness :
  @transcribe_audio plain w_locked "clip.mp3" "Luganda" "token"
  = (Ok (PStr "Error during transcription: [Errno 13] Permission denied: 'clip.mp3'"),
     []).
Proof.
  apply (@unopenable_file_is_reported plain w_locked "clip.mp3" "Luganda" "token"
           "[Errno 13] Permission denied: 'clip.mp3'"); reflexivity.
Defined.

(** X9 on a status request of the scenario with the transcript ["hello"]. *)
Lemma requests_carry_the_token_witness :
  exists job_id,
    job_identifier (post_reply w_hello) = Some job_id
    /\ EvGet "https://api.sunbird.ai/v2/jobs/job-1" [("Authorization", "Bearer token")]
       = EvGet (@job_url plain job_id) (bearer "token").
Proof.
  apply (proj2 (@requests_carry_the_token plain w_hello "clip.mp3" "Luganda" "token"
                  (EvGet "https://api.sunbird.ai/v2/jobs/job-1"
                     [("Authorization", "Bearer token")])
                  ltac:(vm_compute; do 6 right; left; reflexivity))).
  reflexivity.
Defined.

(** X4 on an upload answered 503. *)
Lemma upload_failure_is_reported_witness :
  fst (@transcribe_audio plain w_post_503 "clip.mp3" "Luganda" "token")
  = Ok (PStr "Error: API request failed with status code 503: Service Unavailable")
  /\ n_gets (snd (@transcribe_audio plain w_post_503 "clip.mp3" "Luganda" "token")) = 0.
Proof.
  apply (@upload_failure_is_reported plain w_post_503 "clip.mp3" "Luganda" "token"
           unavailable); try reflexivity.
  discriminate.
Defined.

End TranscribeTraceProps.

(* ================================================================== *)
(** * More on the phrase lookup and on startup *)
(* ================================================================== *)

Module TranslateLookupProps.
Import Py Translate TranslateSpec Scenarios TranslateProps.

Section Lookup.
Context `{Builtins}.

(** A scan that finds something finds it under a key of the dict that equals
    the text up to case; it never raises when it runs over keys of the dict. *)
Lemma scan_found (d : dict string) (text : string) (keys : list string) :
  (forall k, In k keys -> In k (dict_keys d)) ->
  (scan d keys text = Ok None
   /\ forall k, In k keys -> str_lower k <> str_lower text)
  \/ exists phrase tr,
       scan d keys text = Ok (Some tr)
       /\ In phrase keys
       /\ dict_get d phrase = Some tr
       /\ str_lower phrase = str_lower text.
Proof.
  induction keys as [|k keys IH]; intros Hsub.
  - left. split; [reflexivity | intros k []].
  - cbn [scan].
    destruct (String.eqb_spec (str_lower k) (str_lower text)) as [Heq|Hne].
    + right. destruct (dict_get_key d k) as [tr Htr]; [apply Hsub; now left|].
      exists k, tr. unfold subscript. rewrite Htr.
      repeat split; [now left | assumption].
    + destruct IH as [[Hnone Hall] | (phrase & tr & Hs & Hin & Hget & Hlow)].
      * intros k' Hk'. apply Hsub. now right.
      * left. split; [exact Hnone|].
        intros k' [<-|Hk']; [exact Hne | now apply Hall].
      * right. exists phrase, tr. repeat split; try assumption. now right.
Qed.

(** The lookup always answers. *)
Lemma lookup_total (t : table) (src tgt text : string) :
  exists a, lookup t src tgt text = Ok a.
Proof.
  unfold lookup. rewrite has_pair_phrases, entries_phrases.
  destruct (phrases t src tgt) as [d|]; cbn [andb]; [|now eexists].
  unfold dict_in, subscript.
  destruct (dict_get d text) as [tr|]; [now eexists|].
  destruct (scan_found d text (dict_keys d)) as [[-> _] | (p & tr & -> & _)];
    [auto | now eexists | now eexists].
Qed.


(** Where a translation the lookup answers with comes from. *)
Lemma lookup_source (t : table) (src tgt text tr : string) :
  lookup t src tgt text = Ok (Translated tr) ->
  exists phrase,
    dict_get (entries t src tgt) phrase = Some tr
    /\ (phrase = text \/ str_lower phrase = str_lower text).
Proof.
  unfold lookup. rewrite has_pair_phrases, entries_phrases.
  destruct (phrases t src tgt) as [d|]; cbn [andb]; [|discriminate].
  unfold dict_in, subscript.
  destruct (dict_get d text) as [tr'|] eqn:Hget.
  - intros [= ->]. exists text. split; [exact Hget | now left].
  - destruct (scan_found d text (dict_keys d)) as [[-> _] | (p & tr' & -> & _ & Hp & Hlow)];
      [auto | discriminate |].
    intros [= ->]. exists p. split; [exact Hp | now right].
Qed.

(** X12.  A translation the lookup answers with is stored in the table, for
    the pair asked, under a phrase that is the text or equals it up to case. *)
Theorem lookup_answers_from_the_table (t : table) (src tgt text tr : string) :
  lookup t src tgt text = Ok (Translated tr) ->
  exists phrase,
    dict_get (entries t src tgt) phrase = Some tr
    /\ (phrase = text \/ str_lower phrase = str_lower text).
Proof. apply lookup_source. Qed.

(** X13.  A text that equals a phrase of the pair up to case always gets a
    translation, never the answer that there is none. *)
Theorem lookup_ignores_case (t : table) (src tgt text phrase tr : string) :
  dict_get (entries t src tgt) phrase = Some tr ->
  str_lower text = str_lower phrase ->
  exists tr', lookup t src tgt text = Ok (Translated tr').
Proof.
  unfold lookup. rewrite has_pair_phrases, entries_phrases.
  destruct (phrases t src tgt) as [d|]; cbn [andb dict_get]; [|discriminate].
  intros Hget Hlow. unfold dict_in, subscript.
  destruct (dict_get d text) as [tr'|]; [now eexists|].
  destruct (scan_found d text (dict_keys d)) as [[_ Hall] | (p & tr' & -> & _)];
    [auto | | now eexists].
  exfalso. apply (Hall phrase); [|now symmetry].
  apply dict_get_In in Hget. apply (in_map fst) in Hget. exact Hget.
Qed.

End Lookup.

(** ** The theorems at work *)

(** X12 on a Luganda phrase typed in capitals. *)
Lemma lookup_answers_from_the_table_witness :
  exists phrase,
    dict_get (entries derived "Luganda" "English") phrase = Some "Thank you"
    /\ (phrase = "WEEBALE" \/ ascii_lower phrase = ascii_lower "WEEBALE").
Proof.
  apply (@lookup_answers_from_the_table plain derived "Luganda" "English" "WEEBALE"
           "Thank you").
  vm_compute. reflexivity.
Defined.

(** X13 on an English phrase typed in capitals. *)
Lemma lookup_ignores_case_witness :
  exists tr,
    @lookup plain derived "English" "Luganda" "THANK YOU" = Ok (Translated tr).
Proof.
  apply (@lookup_ignores_case plain derived "English" "Luganda" "THANK YOU"
           "Thank you" "Weebale"); vm_compute; reflexivity.
Defined.

End TranslateLookupProps.

(* ================================================================== *)
(** * The derivation of the reverse pairs, on any table *)
(* ================================================================== *)

Module TranslateReverseProps.
Import Py Translate TranslateSpec TranslateReverse Scenarios MoreScenarios.
Import TranslateProps.

(** ** Assignment to a key *)

Lemma dict_get_set {V : Type} (d : dict V) (k k' : string) (v : V) :
  dict_get (dict_set d k v) k' = if String.eqb k k' then Some v else dict_get d k'.
Proof.
  induction d as [|[k0 v0] d IH]; cbn [dict_set dict_get].
  - reflexivity.
  - destruct (String.eqb_spec k0 k) as [->|Hne]; cbn [dict_get].
    + now destruct (String.eqb k k').
    + destruct (String.eqb_spec k0 k') as [->|Hne'].
      * destruct (String.eqb_spec k k') as [->|_]; [now elim Hne | reflexivity].
      * exact IH.
Qed.

Lemma dict_set_new_length {V : Type} (d : dict V) (k : string) (v : V) :
  dict_get d k = None -> List.length (dict_set d k v) = S (List.length d).
Proof.
  induction d as [|[k0 v0] d IH]; cbn [dict_set dict_get]; [reflexivity|].
  destruct (String.eqb k0 k); [discriminate|].
  intros Hnone. cbn [List.length]. now rewrite IH.
Qed.

Lemma entries_set_entry (t : table) (a b k v a' b' : string) :
  entries (set_entry t a b k v) a' b'
  = if String.eqb a a' && String.eqb b b'
    then dict_set (entries t a b) k v
    else entries t a' b'.
Proof.
  unfold entries at 1. unfold row at 1. unfold set_entry.
  rewrite dict_get_set.
  destruct (String.eqb_spec a a') as [<-|Hne]; cbn [andb].
  - rewrite dict_get_set. now destruct (String.eqb b b').
  - reflexivity.
Qed.

(** Making sure a row or a pair is there changes no entry. *)
Lemma entries_new_row (t : table) (a a' b' : string) :
  dict_in a t = false -> entries (dict_set t a []) a' b' = entries t a' b'.
Proof.
  unfold dict_in, entries, row. intros Hin. rewrite dict_get_set.
  destruct (String.eqb_spec a a') as [<-|_]; [|reflexivity].
  now destruct (dict_get t a).
Qed.

Lemma entries_new_pair (t : table) (a b a' b' : string) :
  dict_in b (row t a) = false ->
  entries (dict_set t a (dict_set (row t a) b [])) a' b' = entries t a' b'.
Proof.
  unfold dict_in, entries. intros Hin. unfold row at 1. rewrite dict_get_set.
  destruct (String.eqb_spec a a') as [<-|_]; [|reflexivity].
  rewrite dict_get_set.
  destruct (String.eqb_spec b b') as [<-|_]; [|reflexivity].
  now destruct (dict_get (row t a) b).
Qed.

(** ** The reverse of a dict *)

Lemma reversed_other (d old : dict string) (k : string) :
  ~ In k (map snd d) -> dict_get (reversed d old) k = dict_get old k.
Proof.
  unfold reversed. revert old.
  induction d as [|[p tr] d IH]; intros old Hnot; [reflexivity|].
  cbn [fold_left]. rewrite IH.
  - rewrite dict_get_set.
    destruct (String.eqb_spec tr k) as [->|_]; [|reflexivity].
    exfalso. apply Hnot. now left.
  - intros Hin. apply Hnot. now right.
Qed.

Lemma reversed_last (pre post old : dict string) (phrase translation : string) :
  ~ In translation (map snd post) ->
  dict_get (reversed (pre ++ (phrase, translation) :: post)%list old) translation
  = Some phrase.
Proof.
  intros Hnot. unfold reversed. rewrite fold_left_app. cbn [fold_left].
  fold (reversed post
          (dict_set (fold_left (fun e '(p, tr) => dict_set e tr p) pre old)
             translation phrase)).
  rewrite reversed_other by exact Hnot.
  rewrite dict_get_set. now rewrite String.eqb_refl.
Qed.

(** ** The inner loop between two different languages *)

Lemma reverse_items_runs (src tgt : string) (d : dict string) :
  src <> tgt ->
  forall remaining i t rest,
    entries t src tgt = d ->
    skipn i d = rest ->
    List.length rest = remaining ->
    exists t',
      reverse_items src tgt (List.length d) remaining i t = Ok t'
      /\ forall a b,
           entries t' a b
           = if String.eqb tgt a && String.eqb src b
             then reversed rest (entries t tgt src)
             else entries t a b.
Proof.
  intros Hne.
  induction remaining as [|remaining IH]; intros i t rest Hd Hrest Hlen.
  - destruct rest; [|discriminate].
    exists t. split.
    + cbn [reverse_items]. rewrite Hd, Nat.eqb_refl. reflexivity.
    + intros a b. cbn [reversed fold_left].
      destruct (String.eqb_spec tgt a) as [<-|_]; [|reflexivity].
      destruct (String.eqb_spec src b) as [<-|_]; reflexivity.
  - destruct rest as [|[phrase translation] rest]; [discriminate|].
    injection Hlen as Hlen.
    assert (Hnth : nth_error d i = Some (phrase, translation)).
    { rewrite <- (firstn_skipn i d) at 1. rewrite Hrest.
      assert (Hi : i <= List.length d).
      { destruct (Nat.le_gt_cases i (List.length d)) as [Hle|Hgt]; [exact Hle|].
        rewrite skipn_all2 in Hrest by lia. discriminate. }
      rewrite nth_error_app2; rewrite length_firstn, Nat.min_l by exact Hi;
        [|lia].
      now rewrite Nat.sub_diag. }
    assert (Hnext : skipn (S i) d = rest).
    { rewrite <- (firstn_skipn i d) at 1. rewrite Hrest.
      assert (Hi : i <= List.length d).
      { destruct (Nat.le_gt_cases i (List.length d)) as [Hle|Hgt]; [exact Hle|].
        rewrite skipn_all2 in Hrest by lia. discriminate. }
      replace (S i) with (List.length (firstn i d) + 1)
        by (rewrite length_firstn, Nat.min_l by exact Hi; lia).
      rewrite skipn_app, skipn_all2 by lia.
      replace (List.length (firstn i d) + 1 - List.length (firstn i d)) with 1 by lia.
      reflexivity. }
    assert (Hkeep : entries (set_entry t tgt src translation phrase) src tgt = d).
    { rewrite entries_set_entry.
      destruct (String.eqb_spec tgt src) as [Heq|_]; [now elim Hne|]. exact Hd. }
    destruct (IH (S i) (set_entry t tgt src translation phrase) rest Hkeep Hnext Hlen)
      as (t' & Hrun & Hent).
    exists t'. split.
    + cbn [reverse_items]. rewrite Hd, Nat.eqb_refl. cbn [negb].
      rewrite Hnth. exact Hrun.
    + intros a b. rewrite Hent, !entries_set_entry.
      rewrite !String.eqb_refl. cbn [andb].
      destruct (String.eqb tgt a && String.eqb src b); reflexivity.
Qed.

(** What the body of the outer loops does to a pair of different languages:
    it ends, and only the entries of the reverse pair change. *)
Lemma reverse_pair_runs (src tgt : string) (t : table) :
  src <> tgt ->
  exists t',
    reverse_pair src tgt t = Ok t'
    /\ forall a b,
         entries t' a b
         = if String.eqb tgt a && String.eqb src b
           then reversed (entries t src tgt) (entries t tgt src)
           else entries t a b.
Proof.
  intros Hne. unfold reverse_pair.
  set (t1 := if negb (dict_in tgt t) then dict_set t tgt [] else t).
  set (t2 := if negb (dict_in src (row t1 tgt))
             then dict_set t1 tgt (dict_set (row t1 tgt) src [])
             else t1).
  assert (H1 : forall a b, entries t1 a b = entries t a b).
  { intros a b. unfold t1. destruct (dict_in tgt t) eqn:E; cbn [negb];
      [reflexivity | now apply entries_new_row]. }
  assert (H2 : forall a b, entries t2 a b = entries t a b).
  { intros a b. rewrite <- H1. unfold t2.
    destruct (dict_in src (row t1 tgt)) eqn:E; cbn [negb];
      [reflexivity | now apply entries_new_pair]. }
  cbv zeta.
  destruct (reverse_items_runs src tgt (entries t2 src tgt) Hne
              (List.length (entries t2 src tgt)) 0 t2 (entries t2 src tgt)
              eq_refl eq_refl eq_refl) as (t' & Hrun & Hent).
  exists t'. split; [exact Hrun|].
  intros a b. rewrite Hent, !H2. reflexivity.
Qed.

(** X14.  For two different languages, deriving the reverse pair ends
    without an exception, maps a translation to the last phrase that has it,
    and changes the entries of no other pair. *)
Theorem reverse_pair_keeps_the_last_phrase (src tgt : string) (t : table)
    (pre post : dict string) (phrase translation : string) :
  src <> tgt ->
  entries t src tgt = (pre ++ (phrase, translation) :: post)%list ->
  ~ In translation (map snd post) ->
  exists t',
    reverse_pair src tgt t = Ok t'
    /\ dict_get (entries t' tgt src) translation = Some phrase
    /\ forall a b, (a, b) <> (tgt, src) -> entries t' a b = entries t a b.
Proof.
  intros Hne Hd Hlast.
  destruct (reverse_pair_runs src tgt t Hne) as (t' & Hrun & Hent).
  exists t'. split; [exact Hrun|]. split.
  - rewrite Hent, !String.eqb_refl. cbn [andb]. rewrite Hd.
    now apply reversed_last.
  - intros a b Hab. rewrite Hent.
    destruct (String.eqb_spec tgt a) as [<-|_]; [|reflexivity].
    destruct (String.eqb_spec src b) as [<-|_]; [now elim Hab | reflexivity].
Qed.

(** The iterator notices a dict that has grown. *)
Lemma reverse_items_resized (src tgt : string) (size0 remaining i : nat) (t : table) :
  List.length (entries t src tgt) <> size0 ->
  reverse_items src tgt size0 remaining i t
  = Raised "dictionary changed size during iteration".
Proof.
  intros Hne. apply Nat.eqb_neq in Hne.
  destruct remaining; cbn [reverse_items]; now rewrite Hne.
Qed.

(** X15.  For a language paired with itself whose first phrase has a
    translation that is not itself a phrase, deriving the reverse pair raises
    ["dictionary changed size during iteration"]. *)
Theorem reverse_pair_of_a_language_with_itself (src : string) (t : table)
    (rest : dict string) (phrase translation : string) :
  entries t src src = (phrase, translation) :: rest ->
  dict_get (entries t src src) translation = None ->
  reverse_pair src src t = Raised "dictionary changed size during iteration".
Proof.
  intros Hd Hnew. unfold reverse_pair.
  assert (Hrow : dict_in src t = true /\ dict_in src (row t src) = true).
  { unfold entries, row, dict_in in *.
    destruct (dict_get t src) as [r|]; [|discriminate].
    destruct (dict_get r src); [now split | discriminate]. }
  destruct Hrow as [-> Hin]. cbn [negb]. rewrite Hin. cbn [negb]. cbv zeta.
  rewrite Hd. cbn [List.length reverse_items].
  rewrite Hd. cbn [List.length]. rewrite Nat.eqb_refl. cbn [negb nth_error].
  apply reverse_items_resized.
  rewrite entries_set_entry, !String.eqb_refl. cbn [andb].
  rewrite dict_set_new_length by exact Hnew.
  rewrite Hd. cbn [List.length]. lia.
Qed.

(** ** Startup on a table that pairs no language with itself *)

Lemma dict_in_set {V : Type} (d : dict V) (k k' : string) (v : V) :
  dict_in k' (dict_set d k v) = String.eqb k k' || dict_in k' d.
Proof.
  unfold dict_in. rewrite dict_get_set. now destruct (String.eqb k k').
Qed.

Lemma row_set (t : table) (a a' : string) (r : dict (dict string)) :
  row (dict_set t a r) a' = if String.eqb a a' then r else row t a'.
Proof.
  unfold row. rewrite dict_get_set. now destruct (String.eqb a a').
Qed.

Lemma no_self_pair_set_entry (t : table) (a b k v : string) :
  a <> b -> no_self_pair t -> no_self_pair (set_entry t a b k v).
Proof.
  intros Hne Ht c. unfold set_entry. rewrite row_set.
  destruct (String.eqb_spec a c) as [<-|_]; [|apply Ht].
  rewrite dict_in_set.
  destruct (String.eqb_spec b a) as [Heq|_]; [now elim Hne|]. apply Ht.
Qed.

Lemma reverse_items_no_self_pair (src tgt : string) (size0 : nat) :
  src <> tgt ->
  forall remaining i t t',
    no_self_pair t ->
    reverse_items src tgt size0 remaining i t = Ok t' ->
    no_self_pair t'.
Proof.
  intros Hne. induction remaining as [|remaining IH]; intros i t t' Ht;
    cbn [reverse_items];
    destruct (negb (List.length (entries t src tgt) =? size0)%nat); try discriminate.
  - now intros [= <-].
  - destruct (nth_error (entries t src tgt) i) as [[phrase translation]|];
      [|now intros [= <-]].
    apply IH. apply no_self_pair_set_entry; [|exact Ht].
    intros Heq. now apply Hne.
Qed.

Lemma reverse_pair_no_self_pair (src tgt : string) (t t' : table) :
  src <> tgt -> no_self_pair t -> reverse_pair src tgt t = Ok t' -> no_self_pair t'.
Proof.
  intros Hne Ht. unfold reverse_pair. cbv zeta.
  apply reverse_items_no_self_pair; [exact Hne|].
  assert (H1 : no_self_pair (if negb (dict_in tgt t) then dict_set t tgt [] else t)).
  { destruct (negb (dict_in tgt t)); [|exact Ht].
    intros c. rewrite row_set.
    destruct (String.eqb tgt c); [reflexivity | apply Ht]. }
  set (t1 := if negb (dict_in tgt t) then dict_set t tgt [] else t) in *.
  destruct (negb (dict_in src (row t1 tgt))); [|exact H1].
  intros c. rewrite row_set.
  destruct (String.eqb_spec tgt c) as [<-|_]; [|apply H1].
  rewrite dict_in_set.
  destruct (String.eqb_spec src tgt) as [Heq|_]; [now elim Hne|]. apply H1.
Qed.

Lemma for_each_keeps {A S : Type} (I : S -> Prop) (body : A -> S -> outcome S)
    (xs : list A) :
  (forall x s, In x xs -> I s -> exists s', body x s = Ok s' /\ I s') ->
  forall s, I s -> exists s', for_each xs body s = Ok s' /\ I s'.
Proof.
  induction xs as [|x xs IH]; intros Hbody s Hs; cbn [for_each].
  - now exists s.
  - destruct (Hbody x s (or_introl eq_refl) Hs) as (s1 & -> & Hs1).
    apply IH; [|exact Hs1].
    intros y s' Hy. apply Hbody. now right.
Qed.

(** X16.  On any table that pairs no language with itself, startup runs to
    its end, and the table it leaves pairs no language with itself either. *)
Theorem startup_needs_no_self_pair (t : table) :
  no_self_pair t ->
  exists t', populate_reverse t = Ok t' /\ no_self_pair t'.
Proof.
  intros Ht. unfold populate_reverse.
  apply (for_each_keeps no_self_pair); [|exact Ht].
  intros src_lang t1 _ Ht1.
  apply (for_each_keeps no_self_pair); [|exact Ht1].
  intros tgt_lang t2 Hin Ht2.
  assert (Hne : src_lang <> tgt_lang).
  { intros <-. apply dict_get_key in Hin as [r Hr].
    specialize (Ht1 src_lang). unfold dict_in in Ht1. now rewrite Hr in Ht1. }
  destruct (reverse_pair_runs src_lang tgt_lang t2 Hne) as (t3 & Hrun & _).
  exists t3. split; [exact Hrun|].
  now apply (reverse_pair_no_self_pair src_lang tgt_lang t2).
Qed.

(** ** The theorems at work *)

(** X14 on two phrases with one translation: the reverse pair holds the
    later one. *)
Lemma reverse_pair_keeps_the_last_phrase_witness :
  exists t',
    reverse_pair "English" "Luganda" t_twice = Ok t'
    /\ dict_get (entries t' "Luganda" "English") "Oli otya" = Some "Hi"
    /\ forall a b, (a, b) <> ("Luganda", "English") ->
                   entries t' a b = entries t_twice a b.
Proof.
  apply (reverse_pair_keeps_the_last_phrase "English" "Luganda" t_twice
           [("Hello", "Oli otya")] [] "Hi" "Oli otya").
  - discriminate.
  - reflexivity.
  - intros [].
Defined.

(** X15 on English paired with itself. *)
Lemma reverse_pair_of_a_language_with_itself_witness :
  reverse_pair "English" "English" t_self
  = Raised "dictionary changed size during iteration".
Proof.
  apply (reverse_pair_of_a_language_with_itself "English" t_self [] "Hello" "Hi");
    reflexivity.
Defined.

(** X16 on the authored table. *)
Lemma startup_needs_no_self_pair_witness :
  exists t', populate_reverse authored = Ok t' /\ no_self_pair t'.
Proof.
  apply (startup_needs_no_self_pair authored).
  intros a. unfold row.
  replace (dict_get authored a)
    with (if String.eqb "English" a then Some (row authored "English") else None)
    by reflexivity.
  destruct (String.eqb_spec "English" a) as [<-|_]; reflexivity.
Defined.

End TranslateReverseProps.

(* ================================================================== *)
(** * The translator program *)
(* ================================================================== *)

Module TranslateMainProps.
Import Py Translate TranslateSpec TranslateReverse Console TranslateMain.
Import Scenarios MoreScenarios TranslateProps TranslateLookupProps.

(** ** The table after startup, both ways *)

Lemma mirrored_entries (t : table) :
  forallb (mirrored t) (all_entries t) = true ->
  forall a b k v,
    dict_get (entries t a b) k = Some v -> dict_get (entries t b a) v = Some k.
Proof.
  intros Hall a b k v Hget.
  apply entries_all_entries in Hget.
  pose proof (proj1 (forallb_forall (mirrored t) (all_entries t)) Hall _ Hget) as Hm.
  cbn [mirrored] in Hm.
  destruct (dict_get (entries t b a) v) as [p|]; [|discriminate].
  apply String.eqb_eq in Hm. now subst p.
Qed.

Lemma derived_mirrored : forallb (mirrored derived) (all_entries derived) = true.
Proof. vm_compute. reflexivity. Qed.

(** X17.  The table startup derives is symmetric: whenever a phrase has a
    translation under a pair, the translation has that phrase under the
    reversed pair. *)
Theorem derived_table_is_symmetric :
  exists t,
    translations = Ok t
    /\ forall a b k v,
         dict_get (entries t a b) k = Some v -> dict_get (entries t b a) v = Some k.
Proof.
  exists derived. split; [apply startup_succeeds|].
  apply mirrored_entries. apply derived_mirrored.
Qed.

Section Program.
Context `{Builtins} `{TextBuiltins}.

Lemma mem_In (x : string) (xs : list string) : mem x xs = true -> In x xs.
Proof.
  unfold mem. intros Hm. apply existsb_exists in Hm as (y & Hin & Heq).
  apply String.eqb_eq in Heq. now subst y.
Qed.

Lemma ends_cleanly_after (lines : list string) (r : list string * ending) :
  ends_cleanly r -> ends_cleanly (after lines r).
Proof.
  destruct r as [out e]. unfold ends_cleanly. cbn [after fst snd].
  intros [[-> [shown ->]] | ->]; [left | now right].
  split; [reflexivity|]. exists (lines ++ shown)%list. now rewrite app_assoc.
Qed.

Lemma session_ends_cleanly (t : table) (n : nat) : forall input,
  List.length input <= n -> ends_cleanly (session t input).
Proof.
  induction n as [|n IH]; intros input Hlen.
  - destruct input; [|cbn in Hlen; lia]. now right.
  - destruct input as [|line1 input1]; [now right|].
    cbn [List.length] in Hlen. cbn [session].
    destruct (negb (mem (str_title (str_strip line1)) languages)).
    { apply ends_cleanly_after, IH. lia. }
    destruct input1 as [|line2 input2]; [now right|].
    cbn [List.length] in Hlen.
    destruct (negb (mem (str_title (str_strip line2)) languages)).
    { apply ends_cleanly_after, IH. lia. }
    destruct (String.eqb _ _).
    { apply ends_cleanly_after, IH. lia. }
    destruct input2 as [|line3 input3]; [now right|].
    cbn [List.length] in Hlen.
    destruct (lookup_total t (str_title (str_strip line1))
                (str_title (str_strip line2)) (str_strip line3)) as [a ->].
    destruct input3 as [|line4 input4]; [now right|].
    cbn [List.length] in Hlen.
    destruct (negb (mem (str_strip (str_lower line4)) ["yes"; "y"])).
    + left. split; [reflexivity|]. now eexists.
    + apply ends_cleanly_after, IH. lia.
Qed.

(** X18.  Whatever is typed, the translator either ends normally, with the
    goodbye line printed last, or stops on [EOFError] when its input runs out;
    no other exception ends it. *)
Theorem translator_ends_cleanly (input : list string) :
  (snd (main input) = Finished
   /\ exists shown, fst (main input) = (welcome :: shown ++ [goodbye])%list)
  \/ snd (main input) = Crashed eof.
Proof.
  unfold main. rewrite startup_succeeds.
  destruct (session_ends_cleanly derived (List.length input) input (le_n _))
    as [[He [shown Hs]] | He];
    destruct (session derived input) as [out e]; cbn [after fst snd] in *.
  - left. split; [exact He|]. exists shown. now rewrite Hs.
  - now right.
Qed.

Lemma fixed_from_table (t : table) (lines : list string) (r : list string * ending) :
  (forall line, In line lines -> In line fixed_lines) ->
  all_from_table t r -> all_from_table t (after lines r).
Proof.
  destruct r as [out e]. unfold all_from_table. cbn [after fst].
  intros Hfixed Hr line Hin. apply in_app_or in Hin as [Hin|Hin].
  - left. now apply Hfixed.
  - now apply Hr.
Qed.

Lemma fixed_only (t : table) (lines : list string) (e : ending) :
  forallb (fun line => mem line fixed_lines) lines = true ->
  all_from_table t (lines, e).
Proof.
  intros Hall line Hin. left. apply mem_In.
  exact (proj1 (forallb_forall _ lines) Hall line Hin).
Qed.

Lemma fixed_In (lines : list string) :
  forallb (fun line => mem line fixed_lines) lines = true ->
  forall line, In line lines -> In line fixed_lines.
Proof.
  intros Hall line Hin. apply mem_In.
  exact (proj1 (forallb_forall _ lines) Hall line Hin).
Qed.

Lemma session_from_table (t : table) (n : nat) : forall input,
  List.length input <= n -> all_from_table t (session t input).
Proof.
  induction n as [|n IH]; intros input Hlen.
  - destruct input; [|cbn in Hlen; lia]. now apply fixed_only.
  - destruct input as [|line1 input1]; [now apply fixed_only|].
    cbn [List.length] in Hlen. cbn [session].
    destruct (mem (str_title (str_strip line1)) languages) eqn:Hsrc; cbn [negb];
      [|apply fixed_from_table; [now apply fixed_In | apply IH; lia]].
    destruct input1 as [|line2 input2]; [now apply fixed_only|].
    cbn [List.length] in Hlen.
    destruct (mem (str_title (str_strip line2)) languages) eqn:Htgt; cbn [negb];
      [|apply fixed_from_table; [now apply fixed_In | apply IH; lia]].
    destruct (String.eqb_spec (str_title (str_strip line1))
                (str_title (str_strip line2))) as [_|Hne];
      [apply fixed_from_table; [now apply fixed_In | apply IH; lia]|].
    destruct input2 as [|line3 input3]; [now apply fixed_only|].
    cbn [List.length] in Hlen.
    destruct (lookup t (str_title (str_strip line1)) (str_title (str_strip line2))
                (str_strip line3)) as [a|exc] eqn:Hlook;
      [|now apply fixed_only].
    assert (Hshown : forall line,
              In line [ask_source; ask_target; ask_text; printed a; ask_again] ->
              from_table t line).
    { intros line Hin.
      destruct Hin as [<-|[<-|[<-|[<-|[<-|[]]]]]];
        try (left; apply mem_In; reflexivity).
      destruct a as [tr|]; [|left; apply mem_In; reflexivity].
      destruct (lookup_source t _ _ _ _ Hlook) as (phrase & Hget & _).
      right. exists (str_title (str_strip line1)), (str_title (str_strip line2)),
               phrase, tr.
      repeat split; try assumption; now apply mem_In. }
    destruct input3 as [|line4 input4]; [exact Hshown|].
    cbn [List.length] in Hlen.
    destruct (negb (mem (str_strip (str_lower line4)) ["yes"; "y"])).
    + intros line Hin. cbn [fst] in Hin. apply in_app_or in Hin as [Hin|Hin].
      * now apply Hshown.
      * destruct Hin as [<-|[]]. left. apply mem_In. reflexivity.
    + assert (Hrest : all_from_table t (session t input4)) by (apply IH; lia).
      destruct (session t input4) as [out e]. intros line Hin.
      cbn [after fst] in Hin. apply in_app_or in Hin as [Hin|Hin].
      * now apply Hshown.
      * now apply Hrest.
Qed.

(** X19.  Every line the translator prints is one of its fixed lines or a
    translation that the derived table holds for two different languages of
    its list. *)
Theorem translator_prints_the_table (input : list string) (line : string) :
  In line (fst (main input)) ->
  In line fixed_lines
  \/ exists t src tgt phrase tr,
       translations = Ok t
       /\ In src languages /\ In tgt languages /\ src <> tgt
       /\ dict_get (entries t src tgt) phrase = Some tr
       /\ line = printed (Translated tr).
Proof.
  unfold main. rewrite startup_succeeds.
  pose proof (session_from_table derived (List.length input) input (le_n _)) as Hs.
  destruct (session derived input) as [out e]. cbn [after fst app].
  intros [<-|Hin]; [left; apply mem_In; reflexivity|].
  destruct (Hs line Hin) as [Hfixed | (src & tgt & phrase & tr & H1 & H2 & H3 & H4 & H5)].
  - now left.
  - right. exists derived, src, tgt, phrase, tr.
    split; [reflexivity|]. repeat split; assumption.
Qed.

End Program.

(** ** The theorems at work *)

(** X19 on a session that asks for one Luganda phrase. *)
Lemma translator_prints_the_table_witness :
  In (printed (Translated "Thank you")) fixed_lines
  \/ exists t src tgt phrase tr,
       translations = Ok t
       /\ In src languages /\ In tgt languages /\ src <> tgt
       /\ dict_get (entries t src tgt) phrase = Some tr
       /\ printed (Translated "Thank you") = printed (Translated tr).
Proof.
  apply (@translator_prints_the_table plain plain_text
           ["luganda"; " English"; "weebale"; "no"]).
  vm_compute. do 4 right. left. reflexivity.
Defined.

End TranslateMainProps.

(* ================================================================== *)
(** * The transcription program *)
(* ================================================================== *)

Module TranscribeMainProps.
Import Py Transcribe TranscribeSpec TranscribeTrace Console TranscribeMain.
Import Scenarios MoreScenarios TranscribeProps TranscribeTraceProps.




Section Program.
Context `{Builtins} `{TextBuiltins}.

Lemma no_token_some (tok : string) : no_token (Some tok) = false -> tok <> "".
Proof. cbn. intros Hne ->. discriminate. Qed.

(** Where a token that [main] goes on with comes from. *)
Lemma resolve_token_source (h : host)
    (tok : string) (input : list string) (log : list event) :
  resolve_token h = (inr (tok, input), log) ->
  tok <> ""
  /\ ((environ_token h = Some tok /\ input = stdin h /\ log = [])
      \/ (no_token (environ_token h) = true
          /\ parse_args h = ParsedToken (Some tok)
          /\ input = stdin h /\ log = [])
      \/ (no_token (environ_token h) = true
          /\ exists t line,
               parse_args h = ParsedToken t /\ no_token t = true
               /\ stdin h = line :: input /\ tok = str_strip line
               /\ log = token_warning)).
Proof.
  unfold resolve_token.
  destruct (no_token (environ_token h)) eqn:Henv.
  - destruct (parse_args h) as [t|code]; [|discriminate].
    destruct (no_token t) eqn:Ht.
    + destruct (stdin h) as [|line rest]; [discriminate|].
      destruct (String.eqb_spec (str_strip line) "") as [_|Hne]; [discriminate|].
      intros [= <- <- <-]. split; [exact Hne|].
      right. right. split; [reflexivity|]. now exists t, line.
    + destruct t as [token|]; [|discriminate].
      intros [= <- <- <-]. split; [now apply no_token_some|].
      right. left. now repeat split.
  - rewrite Henv. destruct (environ_token h) as [token|]; [|discriminate].
    intros [= <- <- <-]. split; [now apply no_token_some|].
    left. now repeat split.
Qed.

(** X20.  When [main] goes on with a token, the token is not empty, and it is
    the one of the environment; or, the environment having none, the one of the
    command line; or, both having none, the stripped line typed at the prompt.
    Input is read only in the last case. *)
Theorem token_from_environment_then_arguments_then_prompt (h : host)
    (tok : string) (input : list string) (log : list event) :
  resolve_token h = (inr (tok, input), log) ->
  tok <> ""
  /\ ((environ_token h = Some tok /\ input = stdin h /\ log = [])
      \/ (no_token (environ_token h) = true
          /\ parse_args h = ParsedToken (Some tok)
          /\ input = stdin h /\ log = [])
      \/ (no_token (environ_token h) = true
          /\ exists t line,
               parse_args h = ParsedToken t /\ no_token t = true
               /\ stdin h = line :: input /\ tok = str_strip line
               /\ log = token_warning)).
Proof. apply resolve_token_source. Qed.




Lemma session_ending (h : host) (w : world) (tok : string) (input : list string) :
  fst (transcribe_session h w tok input) = Finished
  \/ fst (transcribe_session h w tok input) = Exited 1
  \/ fst (transcribe_session h w tok input) = Crashed eof.
Proof.
  unfold transcribe_session.
  destruct input as [|line input']; [now right; right|].
  destruct (negb _); [now right; left|].
  destruct (check_audio_length h (str_strip line)) as [ok lines].
  destruct (negb ok); [now right; left|].
  destruct input' as [|line' input'']; [now right; right|].
  destruct (negb _); [now right; left|].
  destruct (transcribe_audio_returns w (str_strip line) (str_title (str_strip line')) tok)
    as [v Hv].
  destruct (transcribe_audio w (str_strip line) (str_title (str_strip line')) tok)
    as [r events].
  cbn [fst] in Hv. subst r. now left.
Qed.

(** X22.  [main] ends by returning, by exit status 1, by the exit of the
    argument parser, or on [EOFError] when its input runs out; nothing
    [transcribe_audio] does makes it crash. *)
Theorem main_ends_by_design (h : host) (w : world) :
  fst (main h w) = Finished
  \/ fst (main h w) = Exited 1
  \/ (exists code, parse_args h = ParseExit code /\ fst (main h w) = Exited code)
  \/ fst (main h w) = Crashed eof.
Proof.
  unfold main.
  destruct (resolve_token h) as [[e | [tok input]] log] eqn:Hres.
  - cbn [fst]. unfold resolve_token in Hres.
    destruct (no_token (environ_token h)) eqn:Henv.
    + destruct (parse_args h) as [t|code].
      * destruct (no_token t).
        -- destruct (stdin h) as [|line rest]; [injection Hres as <- _; now right; right; right|].
           destruct (String.eqb (str_strip line) ""); [|discriminate].
           injection Hres as <- _. now right; left.
        -- destruct t; [discriminate|]. injection Hres as <- _. now right; left.
      * injection Hres as <- _. right. right. left. now exists code.
    + rewrite Henv in Hres. destruct (environ_token h); [discriminate|].
      injection Hres as <- _. now right; left.
  - pose proof (session_ending h w tok input) as Hend.
    destruct (transcribe_session h w tok input) as [e log']. cbn [fst] in *.
    destruct Hend as [-> | [-> | ->]]; auto.
Qed.

End Program.


(** ** The theorems at work *)

(** X20 on a token typed at the prompt. *)
Lemma token_from_environment_then_arguments_then_prompt_witness :
  "secret" <> ""
  /\ ((environ_token h_prompt = Some "secret"
       /\ ["clip.mp3"; "Luganda"] = stdin h_prompt /\ token_warning = [])
      \/ (no_token (environ_token h_prompt) = true
          /\ parse_args h_prompt = ParsedToken (Some "secret")
          /\ ["clip.mp3"; "Luganda"] = stdin h_prompt /\ token_warning = [])
      \/ (no_token (environ_token h_prompt) = true
          /\ exists t line,
               parse_args h_prompt = ParsedToken t /\ no_token t = true
               /\ stdin h_prompt = line :: ["clip.mp3"; "Luganda"]
               /\ "secret" = @str_strip plain_text line
               /\ token_warning = token_warning)).
Proof.
  apply (@token_from_environment_then_arguments_then_prompt plain_text h_prompt
           "secret" ["clip.mp3"; "Luganda"] token_warning).
  reflexivity.
Defined.


End TranscribeMainProps.
